(** * tokenflow: the quota ledger and metered gateway of [llmRoutes.js]

    A shallow embedding of [src/backend/routes/llmRoutes.js]:
    provider inference, token estimation, the [/buy-tokens] purchase
    handler and the [/chat] metering handler, together with the
    properties the design document states about them. *)

From Stdlib Require Import ZArith QArith Qround Qabs Qcanon Qpower Lqa String Ascii List Lia Bool.
From stdpp Require Import base option list gmap strings.

Local Open Scope string_scope.
Local Open Scope Z_scope.

(** ** JavaScript strings

    Names, messages and completions are modelled as ASCII strings: one
    [ascii] per UTF-16 code unit, so that [String.length] is the JS
    [.length] and [toLowerCase] only moves the letters [A]..[Z]. *)

Module JsString.

(** [c.toLowerCase()] on one ASCII character. *)
Definition lower_ascii (c : ascii) : ascii :=
  let n := nat_of_ascii c in
  if ((65 <=? n)%nat && (n <=? 90)%nat)%bool then ascii_of_nat (n + 32) else c.

(** [s.toLowerCase()]. *)
Fixpoint toLowerCase (s : string) : string :=
  match s with
  | EmptyString => EmptyString
  | String c s' => String (lower_ascii c) (toLowerCase s')
  end.

(** [s.startsWith(p)]. *)
Fixpoint startsWith (s p : string) {struct p} : bool :=
  match p with
  | EmptyString => true
  | String b p' =>
      match s with
      | EmptyString => false
      | String a s' => (Ascii.eqb a b && startsWith s' p')%bool
      end
  end.

(** [s.includes(p)]: [p] occurs at some position of [s]. *)
Fixpoint includes (s p : string) : bool :=
  (startsWith s p ||
   match s with
   | EmptyString => false
   | String _ s' => includes s' p
   end)%bool.

(** [s.length] as a JS number. *)
Definition length (s : string) : Z := Z.of_nat (String.length s).

(** [!s] for a string: only the empty string is falsy. *)
Definition falsy (s : string) : bool :=
  match s with EmptyString => true | _ => false end.

End JsString.

(** ** JavaScript numbers

    A JavaScript number is an IEEE 754 binary64 value, and every
    arithmetic operator rounds its exact result to the nearest such
    value, ties to the even significand.  A finite number is held here
    as the rational it denotes: 53 significant bits above an exponent
    clamped at [-1074], the subnormal range included.  A rational that is
    not of that form stands for no number of the program; [round q] is
    then the number a decimal literal [q] denotes.  Magnitudes beyond
    the binary64 range (above 1.79e308, where the operators give
    [Infinity]) are not modelled. *)

Module Double.

(** [2 ^ k] for an integer [k] of either sign. *)
Definition pow2 (k : Z) : Q := (2 ^ k)%Q.

(** The binade of a positive [x]: the [e] with [2^e <= x < 2^(e+1)]. *)
Definition ilog2 (x : Q) : Z :=
  let l := Z.log2 (Qnum x) - Z.log2 (Zpos (Qden x)) in
  if Qle_bool (pow2 l) x then l else l - 1.

(** The nearest integer, a tie going to the even one. *)
Definition nearest_even (x : Q) : Z :=
  let f := Qfloor x in
  match (x - inject_Z f ?= 1 # 2)%Q with
  | Lt => f
  | Gt => f + 1
  | Eq => if Z.even f then f else f + 1
  end.

(** Round to nearest, ties to even: the magnitude is rounded to a
    multiple of its unit in the last place. *)
Definition round (x : Q) : Q :=
  let x := Qred x in
  if Qeq_bool x 0 then 0%Q else
  let a := Qabs x in
  let k := Z.max (ilog2 a - 52) (-1074) in
  let m := inject_Z (nearest_even (a / pow2 k)) in
  Qred ((if Qle_bool 0 x then m else - m) * pow2 k).

(** The operators [+], [-], [*] and [/] on numbers. *)
Definition add (x y : Q) : Q := round (x + y).
Definition sub (x y : Q) : Q := round (x - y).
Definition mul (x y : Q) : Q := round (x * y).
Definition div (x y : Q) : Q := round (x / y).

(** The number that holds an integer result: [z] itself up to [2^53],
    a neighbour of [z] above. *)
Definition count (z : Z) : Z := Qfloor (round (inject_Z z)).

(** A result that the operator does not round. *)
Definition exact (x : Q) : Prop := (round x == x)%Q.

(** The integers that every operator with an integer result gives
    exactly ([Number.MAX_SAFE_INTEGER] and its successor). *)
Definition safe (z : Z) : Prop := Z.abs z <= 2 ^ 53.

End Double.

(** ** Provider inference (lines 10-17) *)

Inductive Provider := openai | anthropic | gemini.

(** A JS computation that either returns or throws [new Error(msg)]. *)
Inductive Exc (A : Type) :=
| Returns (a : A)
| Throws (msg : string).
Arguments Returns {A} a.
Arguments Throws {A} msg.

Definition getProviderFromModel (modelName : string) : Exc Provider :=
  let lower := JsString.toLowerCase modelName in
  if (JsString.includes lower "gpt" || JsString.startsWith lower "gpt")%bool
  then Returns openai
  else if JsString.includes lower "claude" then Returns anthropic
  else if JsString.includes lower "gemini" then Returns gemini
  else Throws ("Unable to determine provider from model name: " ++ modelName).

(** The design document's policy, in its own words: a name "contains"
    a word, case-insensitively, when some contiguous part of the name is
    that word up to the case of its letters. *)
Definition contains_ci (name word : string) : Prop :=
  exists pre mid suf,
    name = pre ++ mid ++ suf /\ JsString.toLowerCase mid = word.

(** [UnknownProvider]: the thrown error of line 16. *)
Definition UnknownProvider (r : Exc Provider) : Prop :=
  exists msg, r = Throws msg.

(** ** The data model (the [User] documents the routes read and write)

    The Mongoose schema [models/User] is outside the routes file; the
    records below carry exactly the fields the routes touch, typed as
    the design document's data model has them.  Money and prices are
    numbers ([Double]); token counters are numbers that hold integers,
    kept as the integer, which a debit of no more than the counter
    leaves exact below [2^53] and a top-up rounds ([Double.count]). *)

Module ApiKey.
(** Modelled from the spec: the [api_keys] entries of [models/User]
    (OwnedKey, section 3): identity, name, encrypted credential and
    the integer token quota [available]. *)
Record t := mk {
  _id : string;
  name : string;
  key : string;            (* encrypted credential *)
  available : Z
}.

Definition debit (n : Z) (k : t) : t :=
  mk (_id k) (name k) (key k) (available k - n).
End ApiKey.

Module TempToken.
(** Modelled from the spec: the [temporaryTokens] entries of
    [models/User] (QuotaBundle, section 3): a priced slice of an owned
    key's quota with its expiry, seller and original key.  The routes
    also read an optional [apiKeyName]. *)
Record t := mk {
  _id : string;
  name : string;
  apiKey : string;         (* encrypted credential copy *)
  apiKeyName : option string;   (* [None] is JS [undefined] *)
  tokensRemaining : Z;
  expiresAt : Z;
  pricePerToken : Q;
  sellerId : string;
  originalApiKeyId : string
}.

(** [k.tokensRemaining += n]. *)
Definition add (n : Z) (k : t) : t :=
  mk (_id k) (name k) (apiKey k) (apiKeyName k)
     (Double.count (tokensRemaining k + n))
     (expiresAt k) (pricePerToken k) (sellerId k) (originalApiKeyId k).

Definition debit (n : Z) (k : t) : t :=
  mk (_id k) (name k) (apiKey k) (apiKeyName k) (tokensRemaining k - n)
     (expiresAt k) (pricePerToken k) (sellerId k) (originalApiKeyId k).
End TempToken.

(** Modelled from the spec: the Account document of [models/User]
    (sections 3 and 6), one per user, stored under the user's id with
    its embedded collections of owned keys and bundles. *)
Record Account := mkAccount {
  acc_amount : Q;
  acc_api_keys : list ApiKey.t;
  acc_temporaryTokens : list TempToken.t
}.

Module User.
(** A loaded document: the stored fields and the [_id] it was found under. *)
Record t := mk {
  _id : string;
  amount : Q;
  api_keys : list ApiKey.t;
  temporaryTokens : list TempToken.t
}.

Definition of_account (id : string) (a : Account) : t :=
  mk id (acc_amount a) (acc_api_keys a) (acc_temporaryTokens a).

Definition account (u : t) : Account :=
  mkAccount (amount u) (api_keys u) (temporaryTokens u).

Definition set_amount (q : Q) (u : t) : t :=
  mk (_id u) q (api_keys u) (temporaryTokens u).

Definition set_api_keys (l : list ApiKey.t) (u : t) : t :=
  mk (_id u) (amount u) l (temporaryTokens u).

Definition set_temporaryTokens (l : list TempToken.t) (u : t) : t :=
  mk (_id u) (amount u) (api_keys u) l.
End User.

(** The [users] collection. *)
Abbreviation DB := (gmap string Account).

(** ** Responses *)

Record Usage := mkUsage {
  promptTokens : Z;
  completionTokens : Z;
  totalTokens : Z
}.

(** What a provider handler returns: [{ text, usage }]. *)
Record ProviderResponse := mkProviderResponse {
  text : string;
  usage : Usage
}.

(** The [purchasedToken] object of the purchase response. *)
Record PurchasedToken := mkPurchasedToken {
  pt_id : string;
  pt_name : string;
  pt_tokensRemaining : Z;
  pt_expiresAt : Z
}.

Inductive Response :=
| Failure (status : Z) (message : string)
| ServerError (message : string) (error : string)
| Purchased (tokensReceived : Z) (amountSpent remainingBalance : Q)
            (purchasedToken : PurchasedToken)
| Completed (response : string) (usage : Usage) (remainingTokens : Z).

(** The design document's error names, as the responses that carry them. *)
Definition InvalidAmount : Response :=
  Failure 400 "Amount too small to purchase any tokens".
Definition InsufficientSupply : Response :=
  Failure 400 "Seller does not have enough tokens available".
Definition InsufficientFunds : Response :=
  Failure 400 "Insufficient balance. Please add funds to continue.".
Definition Exhausted : Response :=
  Failure 400 "Insufficient tokens. Please purchase more.".
Definition InsufficientTokens (r : Response) : Prop :=
  r = Failure 400 "Insufficient tokens for this request." \/
  r = Failure 400 "Insufficient available tokens for this request.".
Definition NotFound (r : Response) : Prop :=
  exists msg, r = Failure 404 msg.

Definition is_success (r : Response) : bool :=
  match r with
  | Purchased _ _ _ _ | Completed _ _ _ => true
  | _ => false
  end.

(** ** Effects: the [await] points of the handlers

    Each handler is a tree whose nodes are the operations it awaits:
    loading a user document, saving one, and the three upstream SDK
    calls.  The code between two awaits runs without interruption. *)

Record OpenAICompletion := mkOpenAICompletion {
  content : string;
  prompt_tokens : Z;
  completion_tokens : Z;
  total_tokens : Z
}.

Inductive Eff : Type -> Type :=
| FindById (id : string) : Eff (option User.t)
| Save (u : User.t) : Eff unit
| OpenAICreate (apiKey model message : string) : Eff (Exc OpenAICompletion)
| AnthropicCreate (apiKey model message : string) : Eff (Exc string)
| GeminiSendMessage (apiKey model message : string) : Eff (Exc string).

Inductive Prog (A : Type) : Type :=
| Ret (a : A)
| Vis {X : Type} (e : Eff X) (k : X -> Prog A).
Arguments Ret {A} a.
Arguments Vis {A X} e k.

Fixpoint bind {A B} (m : Prog A) (f : A -> Prog B) : Prog B :=
  match m with
  | Ret a => f a
  | Vis e k => Vis e (fun x => bind (k x) f)
  end.

Definition await {X} (e : Eff X) : Prog X := Vis e Ret.

#[export] Instance Prog_ret : MRet Prog := fun _ a => Ret a.
#[export] Instance Prog_bind : MBind Prog := fun _ _ f m => bind m f.

(** The events a run leaves behind, in order. *)
Inductive Event :=
| Loaded (id : string)
| Saved (u : User.t)
| Asked (p : Provider) (apiKey model message : string).

Definition event {X} (e : Eff X) : Event :=
  match e with
  | FindById id => Loaded id
  | Save u => Saved u
  | OpenAICreate k m msg => Asked openai k m msg
  | AnthropicCreate k m msg => Asked anthropic k m msg
  | GeminiSendMessage k m msg => Asked gemini k m msg
  end.

(** The documents a run saved, and the upstream calls it made. *)
Definition saved (tr : list Event) : list User.t :=
  omap (fun ev => match ev with Saved u => Some u | _ => None end) tr.

Definition asked (tr : list Event) : list Provider :=
  omap (fun ev => match ev with Asked p _ _ _ => Some p | _ => None end) tr.

(** ** The counts of the purchase arithmetic *)

(** [Math.floor(amount / price)] for a positive finite [amount]: a zero
    price divides to [Infinity], any other price to a quotient that is
    rounded before the floor is taken. *)
Inductive JsCount :=
| Finite (n : Z)
| Infinity.

Definition floor_div (amount price : Q) : JsCount :=
  if Qeq_bool price 0 then Infinity
  else Finite (Qfloor (Double.div amount price)).

(** [Math.ceil(len / 4)]. *)
Definition ceil_div4 (len : Z) : Z := Qceiling (inject_Z len / 4).

(** [a < b] on numbers. *)
Definition Qlt_bool (a b : Q) : bool := negb (Qle_bool b a).

(** [a || b] where [a] may be [undefined] or the empty string. *)
Definition or_else (a : option string) (b : string) : string :=
  match a with
  | Some s => if JsString.falsy s then b else s
  | None => b
  end.

(** ** Provider handlers (lines 278-356) *)

Definition handleOpenAIRequest (message modelId apiKey : string)
  : Prog (Exc ProviderResponse) :=
  response ← await (OpenAICreate apiKey modelId message);
  match response with
  | Throws e => mret (Throws e)
  | Returns response =>
      mret (Returns
        {| text := content response;
           usage := {| promptTokens := prompt_tokens response;
                       completionTokens := completion_tokens response;
                       totalTokens := total_tokens response |} |})
  end.

(** The usage both estimating handlers build from the two texts. *)
Definition estimate (message completion : string) : ProviderResponse :=
  let promptTokens := ceil_div4 (JsString.length message) in
  let completionTokens := ceil_div4 (JsString.length completion) in
  {| text := completion;
     usage := {| promptTokens := promptTokens;
                 completionTokens := completionTokens;
                 totalTokens := promptTokens + completionTokens |} |}.

Definition handleAnthropicRequest (message modelId apiKey : string)
  : Prog (Exc ProviderResponse) :=
  response ← await (AnthropicCreate apiKey modelId message);
  match response with
  | Throws e => mret (Throws e)
  | Returns completion => mret (Returns (estimate message completion))
  end.

Definition handleGeminiRequest (message modelId apiKey : string)
  : Prog (Exc ProviderResponse) :=
  result ← await (GeminiSendMessage apiKey ("models/" ++ modelId) message);
  match result with
  | Throws e => mret (Throws e)
  | Returns completion => mret (Returns (estimate message completion))
  end.

Definition handleProviderRequest (provider : Provider)
    (message modelId apiKey : string) : Prog (Exc ProviderResponse) :=
  match provider with
  | openai => handleOpenAIRequest message modelId apiKey
  | anthropic => handleAnthropicRequest message modelId apiKey
  | gemini => handleGeminiRequest message modelId apiKey
  end.

(** ** [POST /buy-tokens] (lines 78-186) *)

Record BuyTokensBody := mkBuyTokensBody {
  b_sellerId : string;
  b_tokenId : string;
  b_amount : option Q      (* [Number(req.body.amount)]; [None] is [NaN] *)
}.

Definition bad_purchase_request : Response :=
  Failure 400 "Seller ID, token ID, and valid numeric amount are required".

(** The outcome of the in-memory mutation: the two documents to save and
    what the response reports. *)
Record Transfer := mkTransfer {
  tr_buyer : User.t;
  tr_seller : User.t;
  tr_actualAmount : Q;
  tr_purchasedToken : TempToken.t
}.

(** Lines 143-151: the bundle pushed when the buyer holds none of that
    name from that seller.  [newId] is the [_id] Mongoose gives it. *)
Definition newToken (newId : string) (seller : User.t) (token : TempToken.t)
    (tokensToReceive : Z) : TempToken.t :=
  {| TempToken._id := newId;
     TempToken.name := TempToken.name token;
     TempToken.apiKey := TempToken.apiKey token;
     TempToken.apiKeyName := None;
     TempToken.tokensRemaining := tokensToReceive;
     TempToken.expiresAt := TempToken.expiresAt token;
     TempToken.pricePerToken := TempToken.pricePerToken token;
     TempToken.sellerId := User._id seller;
     TempToken.originalApiKeyId := TempToken.originalApiKeyId token |}.

(** Lines 118-159: everything between the last guard and the saves.
    [i] is the position of [token] in the seller's collection. *)
Definition transfer (newId sellerId tokenId : string) (i : nat)
    (token : TempToken.t) (tokensToReceive : Z) (buyer seller : User.t)
  : Transfer :=
  let actualAmount :=
    Double.mul (inject_Z tokensToReceive) (TempToken.pricePerToken token) in
  let buyer :=
    User.set_amount (Double.sub (User.amount buyer) actualAmount) buyer in
  let seller :=
    User.set_amount (Double.add (User.amount seller) actualAmount) seller in
  let token := TempToken.debit tokensToReceive token in
  let seller :=
    User.set_temporaryTokens (<[i := token]> (User.temporaryTokens seller))
                             seller in
  let existingToken :=
    list_find (fun t => TempToken.name t = TempToken.name token /\
                        TempToken.sellerId t = sellerId)
              (User.temporaryTokens buyer) in
  let '(buyer, purchasedToken) :=
    match existingToken with
    | Some (j, t) =>
        let t := TempToken.add tokensToReceive t in
        (User.set_temporaryTokens (<[j := t]> (User.temporaryTokens buyer))
                                  buyer, t)
    | None =>
        let t := newToken newId seller token tokensToReceive in
        (User.set_temporaryTokens (User.temporaryTokens buyer ++ [t]) buyer, t)
    end in
  let seller :=
    if TempToken.tokensRemaining token <=? 0
    then User.set_temporaryTokens
           (filter (fun t => TempToken._id t <> tokenId)
                   (User.temporaryTokens seller)) seller
    else seller in
  mkTransfer buyer seller actualAmount purchasedToken.

(** The success response, lines 168-179. *)
Definition purchased (tokensToReceive : Z) (t : Transfer) : Response :=
  Purchased tokensToReceive (tr_actualAmount t) (User.amount (tr_buyer t))
    {| pt_id := TempToken._id (tr_purchasedToken t);
       pt_name := TempToken.name (tr_purchasedToken t);
       pt_tokensRemaining := TempToken.tokensRemaining (tr_purchasedToken t);
       pt_expiresAt := TempToken.expiresAt (tr_purchasedToken t) |}.

(** [uid] is the authenticated caller, [req.user._id].  The two saves
    belong to one MongoDB transaction, committed at line 165. *)
Definition buy_tokens (newId uid : string) (body : BuyTokensBody)
  : Prog Response :=
  let sellerId := b_sellerId body in
  let tokenId := b_tokenId body in
  match b_amount body with
  | None => mret bad_purchase_request
  | Some amount =>
  if (JsString.falsy sellerId || JsString.falsy tokenId || Qle_bool amount 0)%bool
  then mret bad_purchase_request else
  buyer ← await (FindById uid);
  match buyer with
  | None => mret (Failure 404 "Buyer not found")
  | Some buyer =>
  if Qlt_bool (User.amount buyer) amount then mret InsufficientFunds else
  seller ← await (FindById sellerId);
  match seller with
  | None => mret (Failure 404 "Seller not found")
  | Some seller =>
  match list_find (fun t => TempToken._id t = tokenId)
                  (User.temporaryTokens seller) with
  | None => mret (Failure 404 "Token not found")
  | Some (i, token) =>
  match floor_div amount (TempToken.pricePerToken token) with
  | Infinity => mret InsufficientSupply
  | Finite tokensToReceive =>
  if tokensToReceive <=? 0 then mret InvalidAmount else
  if TempToken.tokensRemaining token <? tokensToReceive
  then mret InsufficientSupply else
  let t := transfer newId sellerId tokenId i token tokensToReceive buyer seller in
  _ ← await (Save (tr_buyer t));
  _ ← await (Save (tr_seller t));
  mret (purchased tokensToReceive t)
  end end end end end.

(** ** [POST /chat] (lines 188-277) *)

Record ChatBody := mkChatBody {
  c_message : string;
  c_keyType : string;
  c_keyId : string;
  c_modelId : string
}.

Definition server_error (e : string) : Response := ServerError "Server error" e.

(** Lines 233-236: the debited bundle goes back to its place in the
    user's collection, and leaves the collection when it is empty. *)
Definition store_bundle (keyId : string) (i : nat) (tempKey : TempToken.t)
    (user : User.t) : User.t :=
  let user :=
    User.set_temporaryTokens (<[i := tempKey]> (User.temporaryTokens user))
                             user in
  if TempToken.tokensRemaining tempKey <=? 0
  then User.set_temporaryTokens
         (filter (fun k => TempToken._id k <> keyId)
                 (User.temporaryTokens user)) user
  else user.

(** Lines 226-245: the provider has answered (or thrown, which the
    handler's [catch] turns into a 500); the cost is checked against the
    bundle as it was loaded, then debited and saved. *)
Definition meter_temp (keyId : string) (i : nat) (tempKey : TempToken.t)
    (user : User.t) (response : Exc ProviderResponse) : Prog Response :=
  match response with
  | Throws e => mret (server_error e)
  | Returns response =>
  let tokensUsed := totalTokens (usage response) in
  if tokensUsed >? TempToken.tokensRemaining tempKey
  then mret (Failure 400 "Insufficient tokens for this request.") else
  let tempKey := TempToken.debit tokensUsed tempKey in
  let user := store_bundle keyId i tempKey user in
  _ ← await (Save user);
  mret (Completed (text response) (usage response)
                  (TempToken.tokensRemaining tempKey))
  end.

Section Chat.

(** [utils/crypto.decrypt], outside the routes file. *)
Variable decrypt : string -> string.

(** The [keyType === 'temp'] branch, lines 203-226. *)
Definition chat_temp (user : User.t) (message keyId modelId : string)
  : Prog Response :=
  match list_find (fun k => TempToken._id k = keyId)
                  (User.temporaryTokens user) with
  | None => mret (Failure 404 "Temporary API key not found")
  | Some (i, tempKey) =>
  if TempToken.tokensRemaining tempKey <=? 0 then mret Exhausted else
  seller ← await (FindById (TempToken.sellerId tempKey));
  match seller with
  | None => mret (Failure 404 "Seller not found")
  | Some seller =>
  match list_find (fun k => ApiKey._id k = TempToken.originalApiKeyId tempKey)
                  (User.api_keys seller) with
  | None => mret (Failure 404 "Original API key not found")
  | Some (_, originalApiKey) =>
  let apiKey := decrypt (ApiKey.key originalApiKey) in
  match getProviderFromModel
          (or_else (TempToken.apiKeyName tempKey) (ApiKey.name originalApiKey)) with
  | Throws e => mret (server_error e)
  | Returns provider =>
  response ← handleProviderRequest provider message modelId apiKey;
  meter_temp keyId i tempKey user response
  end end end end.

(** The [keyType === 'user'] branch, lines 247-268. *)
Definition chat_user (user : User.t) (message keyId modelId : string)
  : Prog Response :=
  match list_find (fun k => ApiKey._id k = keyId) (User.api_keys user) with
  | None => mret (Failure 404 "API key not found")
  | Some (i, userKey) =>
  let apiKey := decrypt (ApiKey.key userKey) in
  match getProviderFromModel (ApiKey.name userKey) with
  | Throws e => mret (server_error e)
  | Returns provider =>
  response ← handleProviderRequest provider message modelId apiKey;
  match response with
  | Throws e => mret (server_error e)
  | Returns response =>
  let tokensUsed := totalTokens (usage response) in
  if ApiKey.available userKey <? tokensUsed
  then mret (Failure 400 "Insufficient available tokens for this request.") else
  let userKey := ApiKey.debit tokensUsed userKey in
  let user :=
    User.set_api_keys (<[i := userKey]> (User.api_keys user)) user in
  _ ← await (Save user);
  mret (Completed (text response) (usage response) (ApiKey.available userKey))
  end end end.

Definition chat (uid : string) (body : ChatBody) : Prog Response :=
  let message := c_message body in
  let keyType := c_keyType body in
  let keyId := c_keyId body in
  let modelId := c_modelId body in
  if (JsString.falsy message || JsString.falsy keyType ||
      JsString.falsy keyId || JsString.falsy modelId)%bool
  then mret (Failure 400 "Message, key type, key ID, and model ID are required")
  else
  user ← await (FindById uid);
  match user with
  | None => mret (Failure 404 "User not found")
  | Some user =>
  if String.eqb keyType "temp" then chat_temp user message keyId modelId
  else if String.eqb keyType "user" then chat_user user message keyId modelId
  else mret (Failure 400 "Invalid key type")
  end.

End Chat.

(** ** Running handlers against the collection *)

(** The three upstream services, as the answers they give. *)
Record Upstream := mkUpstream {
  openai_create : string -> string -> string -> Exc OpenAICompletion;
  anthropic_create : string -> string -> string -> Exc string;
  gemini_sendMessage : string -> string -> string -> Exc string
}.

Section Run.

Variable up : Upstream.

(** Modelled from the spec: the persistence of [models/User] (section
    6, one document per user).  [findById] hands out a fresh copy of
    the stored document, so two requests never share one; [save]
    writes the document back under its [_id], the last write winning. *)
Definition perform {X} (e : Eff X) (db : DB) : X * DB :=
  match e in Eff X return X * DB with
  | FindById id => (User.of_account id <$> db !! id, db)
  | Save u => (tt, <[User._id u := User.account u]> db)
  | OpenAICreate k m msg => (openai_create up k m msg, db)
  | AnthropicCreate k m msg => (anthropic_create up k m msg, db)
  | GeminiSendMessage k m msg => (gemini_sendMessage up k m msg, db)
  end.

(** One request served alone, from its first await to its response. *)
Fixpoint run {A} (p : Prog A) (db : DB) : A * DB * list Event :=
  match p with
  | Ret a => (a, db, [])
  | Vis e k =>
      let '(x, db1) := perform e db in
      let '(a, db2, tr) := run (k x) db1 in
      (a, db2, event e :: tr)
  end.

Definition response_of {A} (r : A * DB * list Event) : A := r.1.1.
Definition db_of {A} (r : A * DB * list Event) : DB := r.1.2.
Definition trace_of {A} (r : A * DB * list Event) : list Event := r.2.

(** Several requests in flight: the event loop resumes one request at
    a time and runs it up to its next await. *)
Definition resume {A} (p : Prog A) (db : DB) : Prog A * DB :=
  match p with
  | Ret a => (Ret a, db)
  | Vis e k => let '(x, db1) := perform e db in (k x, db1)
  end.

Fixpoint run_schedule {A} (sched : list nat) (threads : list (Prog A))
    (db : DB) : list (Prog A) * DB :=
  match sched with
  | [] => (threads, db)
  | i :: sched =>
      match threads !! i with
      | None => run_schedule sched threads db
      | Some p =>
          let '(p1, db1) := resume p db in
          run_schedule sched (<[i := p1]> threads) db1
      end
  end.

Definition finished {A} (p : Prog A) : option A :=
  match p with Ret a => Some a | Vis _ _ => None end.

End Run.

(** ** Vocabulary of the properties *)

(** [n] is the ceiling of [q]: the least integer not below it. *)
Definition is_ceil (q : Q) (n : Z) : Prop :=
  (inject_Z n - 1 < q /\ q <= inject_Z n)%Q.

(** A request that passes the guards of lines 86-106: well-formed, from
    a buyer who can pay the requested amount, for a bundle the seller
    lists. *)
Record Located (db : DB) (uid : string) (body : BuyTokensBody)
    (amount : Q) (buyer seller : User.t) (i : nat) (token : TempToken.t)
  : Prop := {
  ok_amount : b_amount body = Some amount;
  ok_sellerId : b_sellerId body <> "";
  ok_tokenId : b_tokenId body <> "";
  ok_positive : (0 < amount)%Q;
  ok_buyer : User.of_account uid <$> db !! uid = Some buyer;
  ok_funds : (amount <= User.amount buyer)%Q;
  ok_seller :
    User.of_account (b_sellerId body) <$> db !! b_sellerId body = Some seller;
  ok_token :
    list_find (fun t => TempToken._id t = b_tokenId body)
              (User.temporaryTokens seller) = Some (i, token)
}.

(** A request that also passes the guards of lines 109-116. *)
Record Accepted (db : DB) (uid : string) (body : BuyTokensBody)
    (amount : Q) (buyer seller : User.t) (i : nat) (token : TempToken.t)
    (tokensToReceive : Z) : Prop := {
  ok_located : Located db uid body amount buyer seller i token;
  ok_count :
    floor_div amount (TempToken.pricePerToken token) = Finite tokensToReceive;
  ok_some : 0 < tokensToReceive;
  ok_supply : tokensToReceive <= TempToken.tokensRemaining token
}.

(** The arithmetic of a purchase in which no operator rounds: the floor
    of the rounded quotient is the floor of the quotient, and the
    charge, the buyer's difference and the seller's sum are numbers. *)
Definition Unrounded (amount price buyerAmount sellerAmount : Q) : Prop :=
  let tokens := Qfloor (amount / price) in
  let spent := (inject_Z tokens * price)%Q in
  Qfloor (Double.div amount price) = tokens /\
  Double.exact spent /\
  Double.exact (buyerAmount - spent) /\
  Double.exact (sellerAmount + spent).




(** What the upstream provider answers to a request, as its handler
    reports it, and the model name the handler sends. *)
Definition answer (up : Upstream) (provider : Provider)
    (message modelId apiKey : string) : Exc ProviderResponse :=
  response_of (run up (handleProviderRequest provider message modelId apiKey) ∅).

Definition model_sent (provider : Provider) (modelId : string) : string :=
  match provider with
  | gemini => "models/" ++ modelId
  | _ => modelId
  end.

(** A chat request with its four fields, from a caller who exists. *)
Record ChatReady (db : DB) (uid : string) (body : ChatBody) (user : User.t)
  : Prop := {
  cr_message : c_message body <> "";
  cr_keyType : c_keyType body <> "";
  cr_keyId : c_keyId body <> "";
  cr_modelId : c_modelId body <> "";
  cr_user : User.of_account uid <$> db !! uid = Some user
}.

(** A request on a purchased bundle that passes the guards of lines
    203-221: the bundle is held and not empty, its seller exists and
    still has the original key. *)
Record TempResolved (db : DB) (uid : string) (body : ChatBody)
    (user : User.t) (i : nat) (tempKey : TempToken.t) (seller : User.t)
    (j : nat) (originalApiKey : ApiKey.t) : Prop := {
  tk_ready : ChatReady db uid body user;
  tk_kind : c_keyType body = "temp";
  tk_key :
    list_find (fun k => TempToken._id k = c_keyId body)
              (User.temporaryTokens user) = Some (i, tempKey);
  tk_remaining : 0 < TempToken.tokensRemaining tempKey;
  tk_seller :
    User.of_account (TempToken.sellerId tempKey)
      <$> db !! TempToken.sellerId tempKey = Some seller;
  tk_original :
    list_find (fun k => ApiKey._id k = TempToken.originalApiKeyId tempKey)
              (User.api_keys seller) = Some (j, originalApiKey)
}.

(** A request on an owned key that passes the guard of lines 248-249. *)
Record UserResolved (db : DB) (uid : string) (body : ChatBody)
    (user : User.t) (i : nat) (userKey : ApiKey.t) : Prop := {
  uk_ready : ChatReady db uid body user;
  uk_kind : c_keyType body = "user";
  uk_key :
    list_find (fun k => ApiKey._id k = c_keyId body) (User.api_keys user)
      = Some (i, userKey)
}.

(** The quota source of a resolved request: the provider inferred for
    it, the stored credential, and the tokens it has left. *)
Inductive QuotaSource (db : DB) (uid : string) (body : ChatBody)
  : Provider -> string -> Z -> Prop :=
| purchased_source user i tempKey seller j originalApiKey provider :
    TempResolved db uid body user i tempKey seller j originalApiKey ->
    getProviderFromModel
      (or_else (TempToken.apiKeyName tempKey) (ApiKey.name originalApiKey))
      = Returns provider ->
    QuotaSource db uid body provider (ApiKey.key originalApiKey)
                (TempToken.tokensRemaining tempKey)
| owned_source user i userKey provider :
    UserResolved db uid body user i userKey ->
    getProviderFromModel (ApiKey.name userKey) = Returns provider ->
    QuotaSource db uid body provider (ApiKey.key userKey)
                (ApiKey.available userKey).

(** Bundles that come from [buy_tokens]: pushed by a first purchase, then
    topped up by later purchases and drawn down by chats. *)
Inductive PurchaseCreated : TempToken.t -> Prop :=
| created_new newId seller token n :
    PurchaseCreated (newToken newId seller token n)
| created_add n t : PurchaseCreated t -> PurchaseCreated (TempToken.add n t)
| created_debit n t : PurchaseCreated t -> PurchaseCreated (TempToken.debit n t).

(** ** Requests in flight together *)

(** The schedules of two requests that take [a] and [b] turns: every
    way of merging [a] turns of request 0 with [b] turns of request 1. *)
Inductive Interleaving : nat -> nat -> list nat -> Prop :=
| interleaving_done : Interleaving 0 0 []
| interleaving_first a b sched :
    Interleaving a b sched -> Interleaving (S a) b (0%nat :: sched)
| interleaving_second a b sched :
    Interleaving a b sched -> Interleaving a (S b) (1%nat :: sched).

Fixpoint interleavings (a : nat) : nat -> list (list nat) :=
  fix inner (b : nat) : list (list nat) :=
    match a, b with
    | O, O => [[]]
    | S a', O => map (cons 0%nat) (interleavings a' O)
    | O, S b' => map (cons 1%nat) (inner b')
    | S a', S b' =>
        (map (cons 0%nat) (interleavings a' (S b')) ++
         map (cons 1%nat) (inner b'))%list
    end.

(** One request runs to its response before the other takes a turn. *)
Definition serial (turns : nat) (sched : list nat) : bool :=
  bool_decide (sched = (replicate turns 0%nat ++ replicate turns 1%nat)%list) ||
  bool_decide (sched = (replicate turns 1%nat ++ replicate turns 0%nat)%list).

Definition is_overdraft (r : Response) : bool :=
  match r with
  | Failure status m =>
      (status =? 400) &&
      (String.eqb m "Insufficient tokens for this request." ||
       String.eqb m "Insufficient available tokens for this request.")
  | _ => false
  end.

(** How many of the requests have answered with a completion, and how
    many with the overdraft refusal. *)
Definition count_responses (f : Response -> bool)
    (threads : list (Prog Response)) : nat :=
  length (List.filter (fun p => match finished p with
                                | Some r => f r
                                | None => false
                                end) threads).

Definition successes := count_responses is_success.
Definition overdrafts := count_responses is_overdraft.

(** The counter of a bundle as the collection stores it. *)
Definition stored_tokensRemaining (db : DB) (uid keyId : string) : option Z :=
  acc ← db !! uid;
  found ← list_find (fun k => TempToken._id k = keyId) (acc_temporaryTokens acc);
  Some (TempToken.tokensRemaining found.2).

(** *** Two requests on one purchased bundle

    Where a chat request on a purchased bundle stands between its
    awaits.  A request that loaded the user before any save holds a
    fresh copy of the bundle; one that loaded it after a save holds the
    debited copy. *)
Inductive Stage :=
| AtStart
| HasUser (fresh : bool)
| HasSeller (fresh : bool)
| HasAnswer
| Finished (served : bool).

(** One turn of a request; [written] tells whether a debit was saved. *)
Definition turn (s : Stage) (written : bool) : Stage * bool :=
  match s with
  | AtStart => (HasUser (negb written), written)
  | HasUser fresh => (HasSeller fresh, written)
  | HasSeller true => (HasAnswer, written)
  | HasSeller false => (Finished false, written)
  | HasAnswer => (Finished true, true)
  | Finished served => (Finished served, written)
  end.

Fixpoint play (sched : list nat) (a b : Stage) (written : bool)
  : Stage * Stage * bool :=
  match sched with
  | [] => (a, b, written)
  | 0%nat :: sched => let '(a, written) := turn a written in play sched a b written
  | 1%nat :: sched => let '(b, written) := turn b written in play sched a b written
  | _ :: sched => play sched a b written
  end.

Definition served (s : Stage) : bool :=
  match s with Finished true => true | _ => false end.
Definition refused (s : Stage) : bool :=
  match s with Finished false => true | _ => false end.

(** What a schedule of two requests comes to: the debit is saved; when
    the requests run one after the other one is served and one refused,
    otherwise both are served. *)
Definition verdict (sched : list nat) : Prop :=
  let out := play sched AtStart AtStart false in
  out.2 = true /\
  (serial 4 sched = true ->
   served out.1.1 = true /\ refused out.1.2 = true \/
   refused out.1.1 = true /\ served out.1.2 = true) /\
  (serial 4 sched = false ->
   served out.1.1 = true /\ served out.1.2 = true).

#[export] Instance verdict_dec (sched : list nat) : Decision (verdict sched).
Proof. unfold verdict. cbv zeta. apply _. Defined.

Section Stages.

Variable decrypt : string -> string.
Variables (db : DB) (uid : string) (body : ChatBody).
Variables (user : User.t) (i : nat) (tempKey : TempToken.t).
Variables (provider : Provider) (apiKey : string).
Variable response : ProviderResponse.

(** The bundle and the user document after one debit. *)
Definition debited : TempToken.t :=
  TempToken.debit (totalTokens (usage response)) tempKey.
Definition user_after : User.t :=
  store_bundle (c_keyId body) i debited user.

Definition copy_of_user (fresh : bool) : User.t :=
  if fresh then user else user_after.
Definition copy_of_bundle (fresh : bool) : TempToken.t :=
  if fresh then tempKey else debited.

(** The collection before and after the debit is saved. *)
Definition collection (written : bool) : DB :=
  if written then <[uid := User.account user_after]> db else db.

(** The handler's program at each stage. *)
Definition at_stage (s : Stage) : Prog Response :=
  match s with
  | AtStart => chat decrypt uid body
  | HasUser fresh =>
      chat_temp decrypt (copy_of_user fresh) (c_message body) (c_keyId body)
                (c_modelId body)
  | HasSeller fresh =>
      handleProviderRequest provider (c_message body) (c_modelId body) apiKey
        ≫= meter_temp (c_keyId body) i (copy_of_bundle fresh)
                      (copy_of_user fresh)
  | HasAnswer =>
      Vis (Save user_after)
          (fun _ => Ret (Completed (text response) (usage response)
                                   (TempToken.tokensRemaining debited)))
  | Finished true =>
      Ret (Completed (text response) (usage response)
                     (TempToken.tokensRemaining debited))
  | Finished false =>
      Ret (Failure 400 "Insufficient tokens for this request.")
  end.

End Stages.

(** ** A small world to evaluate the handlers in *)

Module Sample.

(** Anthropic answers every message with a nine-character completion. *)
Definition up : Upstream :=
  mkUpstream (fun _ _ _ => Throws "401 Incorrect API key provided")
             (fun _ _ _ => Returns "Hi there!")
             (fun _ _ _ => Throws "API key not valid").

Definition key : ApiKey.t :=
  ApiKey.mk "k1" "Claude production key" "enc:sk-ant" 1000.

(** Ten tokens listed at 1.5 each. *)
Definition bundle : TempToken.t :=
  TempToken.mk "b1" "gpt-4 spare quota" "enc:sk-ant" None 10 1767225600
               (3 # 2) "seller" "k1".

Definition db : DB :=
  <["buyer" := mkAccount 100 [] []]>
    (<["seller" := mkAccount 5 [key] [bundle]]> ∅).

(** An offer of 10 buys six tokens for 9; an offer of 15 buys all ten. *)
Definition order : BuyTokensBody := mkBuyTokensBody "seller" "b1" (Some 10%Q).

Definition decrypt (s : string) : string := "plain:" ++ s.

End Sample.

Module SampleDocs.

(** The two documents of the sample world, as [findById] loads them. *)
Definition buyer : User.t := User.mk "buyer" 100 [] [].
Definition seller : User.t := User.mk "seller" 5 [Sample.key] [Sample.bundle].

(** The collection after the sample order, and its two documents. *)
Definition after_first : DB :=
  db_of (run Sample.up (buy_tokens "n1" "buyer" Sample.order) Sample.db).
Definition buyer1 : User.t :=
  default buyer (User.of_account "buyer" <$> after_first !! "buyer").
Definition seller1 : User.t :=
  default seller (User.of_account "seller" <$> after_first !! "seller").

(** A second, smaller order on the same bundle: 3 buys two tokens. *)
Definition order_more : BuyTokensBody :=
  mkBuyTokensBody "seller" "b1" (Some 3%Q).

End SampleDocs.

Module Held.

(** A buyer holding six tokens of a bundle that expired on 2026-01-01
    (times in seconds since 1970).  The bundle is named for GPT-4; the
    seller's key it was carved from is a Claude key. *)
Definition bought : TempToken.t :=
  TempToken.mk "n1" "gpt-4 spare quota" "enc:sk-ant" None 6 1767225600
               (3 # 2) "seller" "k1".

Definition buyer : User.t := User.mk "buyer" 91 [] [bought].
Definition seller : User.t := User.mk "seller" 14 [Sample.key] [].

Definition db : DB :=
  <["buyer" := User.account buyer]>
    (<["seller" := User.account seller]> ∅).

(** Two questions put to that bundle; Anthropic answers "Hi there!".
    The first costs 5 + 3 tokens, the second 2 + 3. *)
Definition question : ChatBody :=
  mkChatBody "Explain recursion" "temp" "n1" "claude-3-opus-20240229".
Definition short_question : ChatBody :=
  mkChatBody "Hello" "temp" "n1" "claude-3-opus-20240229".

End Held.

Module Cents.

(** A price of one cent and an offer of thirty-five, as the numbers
    that the literals [0.01] and [0.35] denote; the buyer has exactly
    the offer. *)
Definition price : Q := Double.round (1 # 100).
Definition offer : Q := Double.round (35 # 100).

Definition bundle : TempToken.t :=
  TempToken.mk "c1" "gpt-4 by the cent" "enc:sk-live" None 100 1798761600
               price "seller" "k9".

Definition db : DB :=
  <["frank" := mkAccount offer [] []]>
    (<["seller" := mkAccount 0 [] [bundle]]> ∅).

Definition order : BuyTokensBody := mkBuyTokensBody "seller" "c1" (Some offer).

End Cents.

Module Large.

(** A listing of [2^53 + 2] tokens at 1 each, and a buyer who orders
    [2^53] of them and then one more. *)
Definition bundle : TempToken.t :=
  TempToken.mk "g1" "gemini bulk" "enc:key" None (2 ^ 53 + 2) 1798761600
               1 "seller" "k8".

Definition db : DB :=
  <["grace" := mkAccount (inject_Z (2 ^ 54)) [] []]>
    (<["seller" := mkAccount 0 [] [bundle]]> ∅).


End Large.

Module Race.

(** Every OpenAI completion costs six tokens. *)
Definition up : Upstream :=
  mkUpstream (fun _ _ _ => Returns (mkOpenAICompletion "pong" 4 2 6))
             (fun _ _ _ => Throws "overloaded")
             (fun _ _ _ => Throws "overloaded").

Definition key : ApiKey.t := ApiKey.mk "k9" "GPT-4 team key" "enc:sk-live" 500.

(** The quota source: a purchased bundle holding ten tokens. *)
Definition bundle : TempToken.t :=
  TempToken.mk "q1" "gpt-4 quota" "enc:sk-live" None 10 1798761600
               Cents.price "seller" "k9".

Definition carol : User.t := User.mk "carol" 0 [] [bundle].
Definition seller : User.t := User.mk "seller" 0 [key] [].

Definition db : DB :=
  <["carol" := User.account carol]> (<["seller" := User.account seller]> ∅).

Definition request : ChatBody := mkChatBody "ping" "temp" "q1" "gpt-4".
Definition reply : ProviderResponse := mkProviderResponse "pong" (mkUsage 4 2 6).

(** Two requests of the same user on the same bundle.  Each takes four
    turns: load the user, load the seller, ask upstream, save. *)
Definition threads : list (Prog Response) :=
  [chat Sample.decrypt "carol" request; chat Sample.decrypt "carol" request].

Definition overlapped : list nat := [0; 1; 0; 1; 0; 1; 0; 1]%nat.
Definition one_after_the_other : list nat := [0; 0; 0; 0; 1; 1; 1; 1]%nat.

End Race.

(** ** [GET /available-models] (lines 19-76) *)

Record ModelInfo := mkModelInfo {
  m_id : string;
  m_name : string;
  m_description : string
}.

Record ModelsQuery := mkModelsQuery {
  q_keyType : string;      (* the empty string is a missing parameter *)
  q_keyId : string
}.

Inductive ModelsResponse :=
| Models (models : list ModelInfo)
| ModelsFailure (status : Z) (message : string)
| ModelsError (message : string) (error : string).

(** The tables of lines 44-66. *)
Definition models_of (provider : Provider) : list ModelInfo :=
  match provider with
  | openai =>
      [ mkModelInfo "gpt-4" "gpt-4" "OpenAI GPT-4";
        mkModelInfo "gpt-3.5-turbo" "gpt-3.5-turbo" "OpenAI GPT-3.5 Turbo" ]
  | anthropic =>
      [ mkModelInfo "claude-3-opus-20240229" "claude-3-opus-20240229"
                    "Claude 3 Opus";
        mkModelInfo "claude-3-sonnet-20240229" "claude-3-sonnet-20240229"
                    "Claude 3 Sonnet";
        mkModelInfo "claude-3-haiku-20240307" "claude-3-haiku-20240307"
                    "Claude 3 Haiku" ]
  | gemini =>
      [ mkModelInfo "gemini-1.5-pro" "gemini-1.5-pro" "Gemini 1.5 Pro";
        mkModelInfo "gemini-2.0-flash" "gemini-2.0-flash" "Gemini 2.0 Flash" ]
  end.

(** The message of the [TypeError] that reading a property of [null]
    throws (the handler does not check that the user was found). *)
Definition null_property_error (property : string) : string :=
  "Cannot read properties of null (reading '" ++ property ++ "')".

Definition models_error (e : string) : ModelsResponse :=
  ModelsError "Server error" e.

Section AvailableModels.

Variable decrypt : string -> string.

Definition available_models (uid : string) (query : ModelsQuery)
  : Prog ModelsResponse :=
  let keyType := q_keyType query in
  let keyId := q_keyId query in
  if (JsString.falsy keyType || JsString.falsy keyId)%bool
  then mret (ModelsFailure 400 "Key type and ID are required") else
  user ← await (FindById uid);
  if String.eqb keyType "temp" then
    match user with
    | None => mret (models_error (null_property_error "temporaryTokens"))
    | Some user =>
    match list_find (fun k => TempToken._id k = keyId)
                    (User.temporaryTokens user) with
    | None => mret (ModelsFailure 404 "Temporary API key not found")
    | Some (_, tempKey) =>
    let apiKey := decrypt (TempToken.apiKey tempKey) in
    match getProviderFromModel (TempToken.name tempKey) with
    | Throws e => mret (models_error e)
    | Returns provider => mret (Models (models_of provider))
    end end end
  else if String.eqb keyType "user" then
    match user with
    | None => mret (models_error (null_property_error "api_keys"))
    | Some user =>
    match list_find (fun k => ApiKey._id k = keyId) (User.api_keys user) with
    | None => mret (ModelsFailure 404 "API key not found")
    | Some (_, userKey) =>
    let apiKey := decrypt (ApiKey.key userKey) in
    match getProviderFromModel (ApiKey.name userKey) with
    | Throws e => mret (models_error e)
    | Returns provider => mret (Models (models_of provider))
    end end end
  else mret (ModelsFailure 400 "Invalid key type").

End AvailableModels.

(** ** Outcomes of a chat run *)

(** A chat run that is not completed, or is completed with one save. *)
Definition chat_unchanged (db : DB) (R : Response * DB * list Event) : Prop :=
  is_success (response_of R) = false /\ db_of R = db /\ saved (trace_of R) = [].

Definition chat_debited (db : DB) (uid : string)
    (R : Response * DB * list Event) : Prop :=
  exists user user',
    is_success (response_of R) = true /\
    User.of_account uid <$> db !! uid = Some user /\
    saved (trace_of R) = [user'] /\
    db_of R = <[uid := User.account user']> db /\
    User._id user' = uid /\
    User.amount user' = User.amount user /\
    length (asked (trace_of R)) = 1%nat.


(** ** More small worlds *)

Module Owned.

(** A user with three keys of their own: a Claude key with nothing
    left, a Claude key with twenty tokens, and a key whose name names
    no provider. *)
Definition spent_key : ApiKey.t :=
  ApiKey.mk "k5" "Claude personal key" "enc:sk-ant-1" 0.
Definition team_key : ApiKey.t :=
  ApiKey.mk "k6" "claude team key" "enc:sk-ant-2" 20.
Definition local_key : ApiKey.t :=
  ApiKey.mk "k7" "llama-3 local" "enc:none" 50.

Definition dave : User.t :=
  User.mk "dave" 12 [spent_key; team_key; local_key] [].

Definition db : DB := <["dave" := User.account dave]> ∅.

Definition ask (keyId : string) : ChatBody :=
  mkChatBody "Hello" "user" keyId "claude-3-haiku-20240307".

End Owned.

Module Tight.

(** A buyer with exactly 9, the price of the six tokens that an offer
    of 10 buys from the sample bundle. *)
Definition erin : User.t := User.mk "erin" 9 [] [].

Definition db : DB :=
  <["erin" := User.account erin]>
    (<["seller" := User.account SampleDocs.seller]> ∅).

End Tight.

(** * Properties *)

(** ** Strings *)

Section StringFacts.

Import JsString.

Lemma startsWith_spec (s p : string) :
  startsWith s p = true <-> exists suf, s = p ++ suf.
Proof.
  revert s; induction p as [|b p IH]; intros s; simpl.
  - split; [intros _; now exists s | reflexivity].
  - destruct s as [|a s].
    + split; [discriminate | intros [suf H]; discriminate].
    + rewrite andb_true_iff, Ascii.eqb_eq, IH. split.
      * intros [-> [suf ->]]. now exists suf.
      * intros [suf H]. injection H as -> ->. split; [reflexivity | now exists suf].
Qed.

Lemma includes_spec (s p : string) :
  includes s p = true <-> exists pre suf, s = pre ++ p ++ suf.
Proof.
  induction s as [|a s IH].
  - cbn [includes]. rewrite orb_false_r, startsWith_spec. split.
    + intros [suf H]. now exists "", suf.
    + intros [pre [suf H]]. destruct pre; [now exists suf | discriminate].
  - cbn [includes]. rewrite orb_true_iff, startsWith_spec, IH. split.
    + intros [[suf H] | [pre [suf H]]].
      * now exists "", suf.
      * exists (String a pre), suf. simpl. now rewrite H.
    + intros [pre [suf H]]. destruct pre as [|c pre].
      * left. now exists suf.
      * right. injection H as _ H. now exists pre, suf.
Qed.

Lemma toLowerCase_app (a b : string) :
  toLowerCase (a ++ b) = toLowerCase a ++ toLowerCase b.
Proof. induction a as [|c a IH]; simpl; [reflexivity | now rewrite IH]. Qed.

(** Lowering works letter by letter, so a split of the lowered string
    is the image of a split of the string. *)
Lemma toLowerCase_split (s a b : string) :
  toLowerCase s = a ++ b ->
  exists s1 s2, s = s1 ++ s2 /\ toLowerCase s1 = a /\ toLowerCase s2 = b.
Proof.
  revert s; induction a as [|c a IH]; intros s H.
  - now exists "", s.
  - destruct s as [|d s]; [discriminate |].
    simpl in H. injection H as Hc H.
    destruct (IH s H) as (s1 & s2 & -> & H1 & H2).
    exists (String d s1), s2. simpl. now rewrite Hc, H1.
Qed.

Lemma includes_toLowerCase (name word : string) :
  includes (toLowerCase name) word = true <-> contains_ci name word.
Proof.
  rewrite includes_spec. unfold contains_ci. split.
  - intros (pre & suf & H).
    destruct (toLowerCase_split _ _ _ H) as (s1 & s23 & -> & _ & H23).
    destruct (toLowerCase_split _ _ _ H23) as (s2 & s3 & -> & H2 & _).
    now exists s1, s2, s3.
  - intros (pre & mid & suf & -> & <-).
    exists (toLowerCase pre), (toLowerCase suf).
    now rewrite !toLowerCase_app.
Qed.

Lemma startsWith_includes (s p : string) :
  startsWith s p = true -> includes s p = true.
Proof. destruct s; cbn [includes]; intros ->; reflexivity. Qed.

End StringFacts.

(** ** Provider inference *)

Lemma getProviderFromModel_cases (name : string) :
  getProviderFromModel name =
    let lower := JsString.toLowerCase name in
    if JsString.includes lower "gpt" then Returns openai
    else if JsString.includes lower "claude" then Returns anthropic
    else if JsString.includes lower "gemini" then Returns gemini
    else Throws ("Unable to determine provider from model name: " ++ name).
Proof.
  unfold getProviderFromModel. cbv zeta.
  destruct (JsString.includes (JsString.toLowerCase name) "gpt") eqn:Hg; [reflexivity |].
  destruct (JsString.startsWith (JsString.toLowerCase name) "gpt") eqn:Hs; [| reflexivity].
  apply startsWith_includes in Hs. congruence.
Qed.

(** C2. Provider inference is the case-insensitive, first-match substring
    rule: a name containing "gpt" is OpenAI; otherwise one containing
    "claude" is Anthropic; otherwise one containing "gemini" is Gemini;
    any other name throws (UnknownProvider).  The four names of the
    design document resolve as stated, and a name with several of the
    words resolves by the order of the checks. *)
Theorem provider_inference_policy :
  (forall name : string,
      (contains_ci name "gpt" -> getProviderFromModel name = Returns openai) /\
      (~ contains_ci name "gpt" -> contains_ci name "claude" ->
       getProviderFromModel name = Returns anthropic) /\
      (~ contains_ci name "gpt" -> ~ contains_ci name "claude" ->
       contains_ci name "gemini" ->
       getProviderFromModel name = Returns gemini) /\
      (~ contains_ci name "gpt" -> ~ contains_ci name "claude" ->
       ~ contains_ci name "gemini" ->
       UnknownProvider (getProviderFromModel name))) /\
  getProviderFromModel "gpt-4" = Returns openai /\
  getProviderFromModel "claude-3-opus-20240229" = Returns anthropic /\
  getProviderFromModel "gemini-1.5-pro" = Returns gemini /\
  UnknownProvider (getProviderFromModel "llama-3") /\
  getProviderFromModel "Gemini via Claude and GPT" = Returns openai /\
  getProviderFromModel "gemini-or-CLAUDE" = Returns anthropic.
Proof.
  split.
  - intros name. rewrite getProviderFromModel_cases. cbv zeta.
    rewrite <- !includes_toLowerCase.
    destruct (JsString.includes (JsString.toLowerCase name) "gpt");
      destruct (JsString.includes (JsString.toLowerCase name) "claude");
      destruct (JsString.includes (JsString.toLowerCase name) "gemini");
      repeat split; intros; try reflexivity; try congruence;
      try (eexists; reflexivity).
  - repeat split; try reflexivity. eexists; reflexivity.
Qed.

(** The rule at a mixed-case name. *)
Lemma provider_inference_policy_witness :
  contains_ci "My GPT-4 Turbo key" "gpt" /\
  getProviderFromModel "My GPT-4 Turbo key" = Returns openai.
Proof.
  assert (H : contains_ci "My GPT-4 Turbo key" "gpt")
    by (exists "My ", "GPT", "-4 Turbo key"; split; reflexivity).
  split; [exact H |].
  exact (proj1 (proj1 provider_inference_policy "My GPT-4 Turbo key") H).
Defined.

(** ** Token estimation *)

Lemma ceil_div4_is_ceil (len : Z) : is_ceil (inject_Z len / 4) (ceil_div4 len).
Proof.
  unfold is_ceil, ceil_div4. split.
  - pose proof (Qceiling_lt (inject_Z len / 4)) as H.
    unfold Z.sub in H. rewrite inject_Z_plus in H. exact H.
  - apply Qle_ceiling.
Qed.

Lemma is_ceil_unique (q : Q) (n m : Z) : is_ceil q n -> is_ceil q m -> n = m.
Proof.
  unfold is_ceil. intros [H1 H2] [H3 H4].
  assert (Hnm : (inject_Z n - 1 < inject_Z m)%Q) by lra.
  assert (Hmn : (inject_Z m - 1 < inject_Z n)%Q) by lra.
  assert (Hn : (inject_Z n < inject_Z (m + 1))%Q) by (rewrite inject_Z_plus; change (inject_Z 1) with 1%Q; lra).
  assert (Hm : (inject_Z m < inject_Z (n + 1))%Q) by (rewrite inject_Z_plus; change (inject_Z 1) with 1%Q; lra).
  rewrite <- Zlt_Qlt in Hn, Hm. lia.
Qed.

Section Estimation.

Variable up : Upstream.

Lemma run_handleAnthropicRequest (message modelId apiKey : string) (db : DB) :
  run up (handleAnthropicRequest message modelId apiKey) db =
    (match anthropic_create up apiKey modelId message with
     | Throws e => Throws e
     | Returns completion => Returns (estimate message completion)
     end, db, [Asked anthropic apiKey modelId message]).
Proof.
  unfold handleAnthropicRequest. simpl.
  destruct (anthropic_create up apiKey modelId message); reflexivity.
Qed.

Lemma run_handleGeminiRequest (message modelId apiKey : string) (db : DB) :
  run up (handleGeminiRequest message modelId apiKey) db =
    (match gemini_sendMessage up apiKey ("models/" ++ modelId) message with
     | Throws e => Throws e
     | Returns completion => Returns (estimate message completion)
     end, db, [Asked gemini apiKey ("models/" ++ modelId) message]).
Proof.
  unfold handleGeminiRequest. simpl.
  destruct (gemini_sendMessage up apiKey _ message); reflexivity.
Qed.

Lemma run_handleOpenAIRequest (message modelId apiKey : string) (db : DB) :
  run up (handleOpenAIRequest message modelId apiKey) db =
    (match openai_create up apiKey modelId message with
     | Throws e => Throws e
     | Returns r =>
         Returns {| text := content r;
                    usage := {| promptTokens := prompt_tokens r;
                                completionTokens := completion_tokens r;
                                totalTokens := total_tokens r |} |}
     end, db, [Asked openai apiKey modelId message]).
Proof.
  unfold handleOpenAIRequest. simpl.
  destruct (openai_create up apiKey modelId message); reflexivity.
Qed.

End Estimation.

(** C3. For the two providers that report no token counts, Anthropic and
    Gemini, the usage is [promptTokens = ceil(length(message) / 4)],
    [completionTokens = ceil(length(completion) / 4)] and [totalTokens]
    their sum; a 17-character message with a 9-character completion
    gives 5, 3 and 8. *)
Theorem estimated_usage (up : Upstream) (p : Provider)
    (message modelId apiKey completion : string) (db : DB) :
  match p with
  | openai => False
  | anthropic => anthropic_create up apiKey modelId message = Returns completion
  | gemini =>
      gemini_sendMessage up apiKey ("models/" ++ modelId) message
        = Returns completion
  end ->
  exists u,
    response_of (run up (handleProviderRequest p message modelId apiKey) db)
      = Returns {| text := completion; usage := u |} /\
    is_ceil (inject_Z (JsString.length message) / 4) (promptTokens u) /\
    is_ceil (inject_Z (JsString.length completion) / 4) (completionTokens u) /\
    totalTokens u = promptTokens u + completionTokens u /\
    (String.length message = 17%nat -> String.length completion = 9%nat ->
     promptTokens u = 5 /\ completionTokens u = 3 /\ totalTokens u = 8).
Proof.
  intros H. exists (usage (estimate message completion)).
  split; [| split; [| split; [| split]]].
  - destruct p; [contradiction | |]; cbn [handleProviderRequest].
    + rewrite run_handleAnthropicRequest, H. reflexivity.
    + rewrite run_handleGeminiRequest, H. reflexivity.
  - apply ceil_div4_is_ceil.
  - apply ceil_div4_is_ceil.
  - reflexivity.
  - intros H17 H9. simpl. unfold JsString.length. rewrite H17, H9.
    repeat split.
Qed.

(** The estimate on an Anthropic completion of 9 characters for a
    message of 17. *)
Lemma estimated_usage_witness :
  exists u,
    response_of
      (run (mkUpstream (fun _ _ _ => Throws "") (fun _ _ _ => Returns "Hi there!")
                       (fun _ _ _ => Throws ""))
           (handleProviderRequest anthropic "Explain recursion" "claude-3" "sk") ∅)
      = Returns {| text := "Hi there!"; usage := u |} /\
    is_ceil (inject_Z (JsString.length "Explain recursion") / 4) (promptTokens u) /\
    is_ceil (inject_Z (JsString.length "Hi there!") / 4) (completionTokens u) /\
    totalTokens u = promptTokens u + completionTokens u /\
    (String.length "Explain recursion" = 17%nat -> String.length "Hi there!" = 9%nat ->
     promptTokens u = 5 /\ completionTokens u = 3 /\ totalTokens u = 8).
Proof.
  apply (estimated_usage
           (mkUpstream (fun _ _ _ => Throws "") (fun _ _ _ => Returns "Hi there!")
                       (fun _ _ _ => Throws ""))
           anthropic "Explain recursion" "claude-3" "sk" "Hi there!" ∅).
  reflexivity.
Defined.

(** ** Numbers *)

Lemma pow2_pos (k : Z) : (0 < Double.pow2 k)%Q.
Proof. apply Qpower_0_lt. reflexivity. Qed.

Lemma pow2_Z (k : Z) : 0 <= k -> (Double.pow2 k == inject_Z (2 ^ k))%Q.
Proof. intros Hk. unfold Double.pow2. now rewrite Zpower_Qpower. Qed.

Lemma pow2_plus (a b : Z) :
  (Double.pow2 (a + b) == Double.pow2 a * Double.pow2 b)%Q.
Proof. unfold Double.pow2. apply Qpower_plus. discriminate. Qed.

(** For [k <= 0], [1 / 2^k] is the integer [2^(-k)]. *)
Lemma pow2_inv (k : Z) :
  k <= 0 -> (/ Double.pow2 k == inject_Z (2 ^ (- k)))%Q.
Proof.
  intros Hk. rewrite <- pow2_Z by lia. unfold Double.pow2.
  now rewrite Qpower_opp.
Qed.

Lemma pow2_le (a b : Z) : a <= b -> (Double.pow2 a <= Double.pow2 b)%Q.
Proof. intros H. unfold Double.pow2. apply Qpower_le_compat_l; [exact H | discriminate]. Qed.

Lemma pow2_lt_inv (a b : Z) : (Double.pow2 a < Double.pow2 b)%Q -> a < b.
Proof.
  intros H. destruct (Z.lt_ge_cases a b) as [|Hge]; [assumption | exfalso].
  pose proof (pow2_le _ _ Hge). lra.
Qed.

Lemma nearest_even_Z (z : Z) (x : Q) :
  (x == inject_Z z)%Q -> Double.nearest_even x = z.
Proof.
  intros Hx. unfold Double.nearest_even.
  assert (Hf : Qfloor x = z) by (rewrite Hx; apply Qfloor_Z).
  rewrite Hf.
  assert (Hlt : (x - inject_Z z < 1 # 2)%Q) by (rewrite Hx; lra).
  destruct (Qcompare_spec (x - inject_Z z) (1 # 2)) as [H | H | H];
    [lra | reflexivity | lra].
Qed.

(** The nearest integer is the floor or the next integer, and the next
    one only from the half upwards. *)
Lemma nearest_even_bounds (x : Q) :
  let m := Double.nearest_even x in
  Qfloor x <= m <= Qfloor x + 1 /\
  (m = Qfloor x + 1 -> (1 # 2 <= x - inject_Z (Qfloor x))%Q).
Proof.
  unfold Double.nearest_even.
  destruct (Qcompare_spec (x - inject_Z (Qfloor x)) (1 # 2)) as [H | H | H].
  - destruct (Z.even (Qfloor x)); (split; [lia |]); intros _; lra.
  - split; [lia |]. intros; lia.
  - split; [lia |]. intros _. lra.
Qed.

(** The binade of a positive rational. *)
Lemma ilog2_spec (x : Q) :
  (0 < x)%Q ->
  (Double.pow2 (Double.ilog2 x) <= x < Double.pow2 (Double.ilog2 x + 1))%Q.
Proof.
  intros Hx. destruct x as [n d]. unfold Double.ilog2. simpl Qnum. simpl Qden.
  assert (Hn : 0 < n) by (unfold Qlt in Hx; simpl in Hx; lia).
  pose proof (Z.log2_spec n Hn) as [Hn1 Hn2].
  pose proof (Z.log2_spec (Zpos d) ltac:(lia)) as [Hd1 Hd2].
  pose proof (Z.log2_nonneg n) as Hln.
  pose proof (Z.log2_nonneg (Zpos d)) as Hld.
  set (ln := Z.log2 n) in *. set (ld := Z.log2 (Zpos d)) in *.
  (* the fraction against the powers of its numerator and denominator *)
  assert (Hq : (n # d == inject_Z n / inject_Z (Zpos d))%Q) by apply Qmake_Qdiv.
  assert (Hdpos : (0 < inject_Z (Zpos d))%Q) by reflexivity.
  assert (Hlo : (Double.pow2 (ln - ld - 1) <= n # d)%Q).
  { replace (ln - ld - 1) with (ln + - (ld + 1)) by lia.
    rewrite pow2_plus. unfold Double.pow2 at 2. rewrite Qpower_opp.
    fold (Double.pow2 (ld + 1)). rewrite !pow2_Z by lia. rewrite Hq.
    assert (H1 : (inject_Z (2 ^ ln) <= inject_Z n)%Q) by (now rewrite <- Zle_Qle).
    assert (H2 : (inject_Z (Zpos d) <= inject_Z (2 ^ (ld + 1)))%Q)
      by (rewrite <- Zle_Qle; lia).
    assert (H3 : (0 < inject_Z (2 ^ ln))%Q).
    { change 0%Q with (inject_Z 0). rewrite <- Zlt_Qlt.
      now apply Z.pow_pos_nonneg. }
    apply Qle_shift_div_l; [exact Hdpos |].
    assert (Hre : (inject_Z (2 ^ ln) * / inject_Z (2 ^ (ld + 1))
                   * inject_Z (Z.pos d)
                   == inject_Z (2 ^ ln)
                      * (inject_Z (Z.pos d) / inject_Z (2 ^ (ld + 1))))%Q)
      by (field; lra).
    rewrite Hre.
    assert (H4 : (inject_Z (Z.pos d) / inject_Z (2 ^ (ld + 1)) <= 1)%Q)
      by (apply Qle_shift_div_r; lra).
    nra. }
  assert (Hhi : (n # d < Double.pow2 (ln - ld + 1))%Q).
  { replace (ln - ld + 1) with (ln + 1 + - ld) by lia.
    rewrite pow2_plus. unfold Double.pow2 at 2. rewrite Qpower_opp.
    fold (Double.pow2 ld). rewrite !pow2_Z by lia. rewrite Hq.
    assert (H1 : (inject_Z n < inject_Z (2 ^ (ln + 1)))%Q) by (now rewrite <- Zlt_Qlt).
    assert (H2 : (inject_Z (2 ^ ld) <= inject_Z (Zpos d))%Q)
      by (now rewrite <- Zle_Qle).
    assert (H3 : (0 < inject_Z (2 ^ ld))%Q).
    { change 0%Q with (inject_Z 0). rewrite <- Zlt_Qlt.
      now apply Z.pow_pos_nonneg. }
    apply Qlt_shift_div_r; [exact Hdpos |].
    assert (Hre : (inject_Z (2 ^ (ln + 1)) * / inject_Z (2 ^ ld)
                   * inject_Z (Z.pos d)
                   == inject_Z (2 ^ (ln + 1))
                      * (inject_Z (Z.pos d) / inject_Z (2 ^ ld)))%Q)
      by (field; lra).
    rewrite Hre.
    assert (H4 : (1 <= inject_Z (Z.pos d) / inject_Z (2 ^ ld))%Q)
      by (apply Qle_shift_div_l; lra).
    assert (H0 : (0 <= inject_Z n)%Q)
      by (change 0%Q with (inject_Z 0); rewrite <- Zle_Qle; lia).
    assert (H5 : (0 < inject_Z (2 ^ (ln + 1)))%Q) by lra.
    nra. }
  destruct (Qle_bool (Double.pow2 (ln - ld)) (n # d)) eqn:E.
  - apply Qle_bool_iff in E. split; assumption.
  - replace (ln - ld - 1 + 1) with (ln - ld) by lia. split; [exact Hlo |].
    apply Qnot_le_lt. intros Hle. apply Qle_bool_iff in Hle. congruence.
Qed.

Lemma Qfloor_unique (x : Q) (z : Z) :
  (inject_Z z <= x)%Q -> (x < inject_Z (z + 1))%Q -> Qfloor x = z.
Proof.
  intros Hlo Hhi.
  pose proof (Qfloor_le x) as H1. pose proof (Qlt_floor x) as H2.
  assert (Ha : (inject_Z z < inject_Z (Qfloor x + 1))%Q) by lra.
  assert (Hb : (inject_Z (Qfloor x) < inject_Z (z + 1))%Q) by lra.
  rewrite <- Zlt_Qlt in Ha, Hb. lia.
Qed.

(** The quotient of two whole numbers, the first below [2^53], is never
    rounded up to the next integer: between the quotient and that
    integer lies at least [1/p], more than half a unit in the last
    place. *)
Lemma floor_rounded_quotient (a p : Z) :
  0 < a < 2 ^ 53 -> 0 < p <= 2 ^ 53 ->
  Qfloor (Double.div (inject_Z a) (inject_Z p)) = a / p.
Proof.
  intros Ha Hp. unfold Double.div, Double.round.
  set (x := (inject_Z a / inject_Z p)%Q).
  assert (Hpq : (0 < inject_Z p)%Q)
    by (change 0%Q with (inject_Z 0); rewrite <- Zlt_Qlt; lia).
  assert (Haq : (0 < inject_Z a)%Q)
    by (change 0%Q with (inject_Z 0); rewrite <- Zlt_Qlt; lia).
  assert (Hx : (0 < x)%Q) by (subst x; apply Qlt_shift_div_l; lra).
  assert (Hxp : (x * inject_Z p == inject_Z a)%Q) by (subst x; field; lra).
  set (q := Qred x). cbv zeta.
  assert (Hq : (q == x)%Q) by apply Qred_correct.
  assert (Hq0 : Qeq_bool q 0 = false).
  { apply not_true_is_false. intros H. apply Qeq_bool_iff in H. lra. }
  assert (Hqs : Qle_bool 0 q = true) by (apply Qle_bool_iff; lra).
  rewrite Hq0, Hqs.
  set (A := Qabs q).
  assert (HA : (A == x)%Q) by (subst A; rewrite Qabs_pos; lra).
  destruct (ilog2_spec A ltac:(lra)) as [He1 He2].
  set (e := Double.ilog2 A) in *.
  (* the binade of the quotient *)
  assert (Hx53 : (x < Double.pow2 53)%Q).
  { rewrite pow2_Z by lia.
    assert (H1 : (inject_Z a < inject_Z (2 ^ 53))%Q) by (rewrite <- Zlt_Qlt; lia).
    assert (H2 : (1 <= inject_Z p)%Q)
      by (change 1%Q with (inject_Z 1); rewrite <- Zle_Qle; lia).
    nra. }
  assert (Hxm : (Double.pow2 (-53) <= x)%Q).
  { assert (Hinv : (Double.pow2 (-53) == / inject_Z (2 ^ 53))%Q)
      by (vm_compute; reflexivity).
    rewrite Hinv.
    assert (H1 : (inject_Z p <= inject_Z (2 ^ 53))%Q) by (rewrite <- Zle_Qle; lia).
    assert (H2 : (1 <= inject_Z a)%Q)
      by (change 1%Q with (inject_Z 1); rewrite <- Zle_Qle; lia).
    assert (H3 : (0 < inject_Z (2 ^ 53))%Q) by lra.
    apply Qle_shift_inv_r; [exact H3 |]. nra. }
  assert (Hehi : e < 53) by (apply pow2_lt_inv; lra).
  assert (Helo : -53 < e + 1) by (apply pow2_lt_inv; lra).
  rewrite Z.max_l by lia.
  set (k := e - 52).
  set (K := 2 ^ (- k)).
  assert (HK : 0 < K) by (subst K; apply Z.pow_pos_nonneg; lia).
  assert (HKq : (0 < inject_Z K)%Q)
    by (change 0%Q with (inject_Z 0); rewrite <- Zlt_Qlt; lia).
  assert (Hinv : (/ Double.pow2 k == inject_Z K)%Q) by (apply pow2_inv; lia).
  assert (Hpk : (Double.pow2 k * inject_Z K == 1)%Q).
  { rewrite <- Hinv. field. pose proof (pow2_pos k). lra. }
  pose proof (pow2_pos k) as Hpkpos.
  (* the scaled quotient *)
  set (y := (A / Double.pow2 k)%Q).
  assert (Hy : (y == inject_Z (a * K) / inject_Z p)%Q).
  { subst y. unfold Qdiv at 1. rewrite Hinv, HA. subst x.
    rewrite inject_Z_mult. field. lra. }
  assert (HF : Qfloor y = a * K / p) by (rewrite Hy; symmetry; apply Zdiv_Qdiv).
  destruct (nearest_even_bounds y) as [[Hm1 Hm2] Hhalf].
  set (m := Double.nearest_even y) in *.
  rewrite HF in Hm1, Hm2, Hhalf.
  set (f := a / p).
  pose proof (Z.mul_div_le a p ltac:(lia)) as Hf1.
  pose proof (Z.mul_succ_div_gt a p ltac:(lia)) as Hf2. fold f in Hf1, Hf2.
  pose proof (Z.mul_div_le (a * K) p ltac:(lia)) as HF1.
  pose proof (Z.mul_succ_div_gt (a * K) p ltac:(lia)) as HF2.
  set (F := a * K / p) in *.
  assert (Hlow : f * K <= F) by (subst F; apply Z.div_le_lower_bound; nia).
  assert (Hupp : F < (f + 1) * K) by (subst F; apply Z.div_lt_upper_bound; nia).
  (* the price against the unit in the last place *)
  assert (H2K : p < 2 * K).
  { assert (Hee : (Double.pow2 e * inject_Z (2 * K) == inject_Z (2 ^ 53))%Q).
    { replace (2 * K) with (2 ^ (53 - e))
        by (subst K k; replace (53 - e) with (Z.succ (- (e - 52))) by lia;
            rewrite Z.pow_succ_r by lia; reflexivity).
      rewrite <- !pow2_Z by lia. rewrite <- pow2_plus. now replace (e + (53 - e)) with 53 by lia. }
    assert (H1 : (inject_Z p * Double.pow2 e <= inject_Z a)%Q).
    { rewrite <- Hxp. pose proof (pow2_pos e). nra. }
    assert (H2 : (inject_Z a < inject_Z (2 ^ 53))%Q) by (rewrite <- Zlt_Qlt; lia).
    assert (H3 : (inject_Z p < inject_Z (2 * K))%Q).
    { pose proof (pow2_pos e) as Hpe.
      destruct (Qlt_le_dec (inject_Z p) (inject_Z (2 * K))) as [|Hge];
        [assumption | exfalso].
      assert (Double.pow2 e * inject_Z (2 * K) <= inject_Z p * Double.pow2 e)%Q by nra.
      lra. }
    now rewrite <- Zlt_Qlt in H3. }
  assert (Hm : f * K <= m < (f + 1) * K).
  { split; [lia |].
    destruct (Z.eq_dec m (F + 1)) as [Hm | Hm]; [| lia].
    destruct (Z.eq_dec (F + 1) ((f + 1) * K)) as [HFe | HFe]; [exfalso | lia].
    specialize (Hhalf Hm).
    assert (Hy2 : (y * inject_Z p == inject_Z (a * K))%Q) by (rewrite Hy; field; lra).
    assert (H5 : (inject_Z (p + 2 * (F * p)) <= inject_Z (2 * (a * K)))%Q).
    { rewrite inject_Z_plus, !inject_Z_mult. rewrite inject_Z_mult in Hy2.
      change (inject_Z 2) with 2%Q. nra. }
    rewrite <- Zle_Qle in H5. nia. }
  (* back from the scaled integer to the quotient *)
  rewrite (Qred_correct (inject_Z m * Double.pow2 k)).
  apply Qfloor_unique.
  - assert (H1 : (inject_Z (f * K) <= inject_Z m)%Q) by (rewrite <- Zle_Qle; lia).
    rewrite inject_Z_mult in H1.
    assert (H2 : (inject_Z f == inject_Z f * inject_Z K * Double.pow2 k)%Q).
    { rewrite <- Qmult_assoc, (Qmult_comm (inject_Z K)), Hpk. ring. }
    rewrite H2. apply Qmult_le_compat_r; lra.
  - assert (H1 : (inject_Z m < inject_Z ((f + 1) * K))%Q) by (rewrite <- Zlt_Qlt; lia).
    rewrite inject_Z_mult in H1.
    assert (H2 : (inject_Z (f + 1)
                  == inject_Z (f + 1) * inject_Z K * Double.pow2 k)%Q).
    { rewrite <- Qmult_assoc, (Qmult_comm (inject_Z K)), Hpk. ring. }
    rewrite H2. apply Qmult_lt_compat_r; lra.
Qed.

Lemma ilog2_Z (a : Z) : 0 < a -> Double.ilog2 (inject_Z a) = Z.log2 a.
Proof.
  intros Ha. unfold Double.ilog2. simpl. rewrite Z.sub_0_r.
  pose proof (Z.log2_spec a Ha) as [Hlo _].
  pose proof (Z.log2_nonneg a) as Hnn.
  assert (Hle : Qle_bool (Double.pow2 (Z.log2 a)) (inject_Z a) = true).
  { apply Qle_bool_iff. rewrite pow2_Z by lia. now rewrite <- Zle_Qle. }
  now rewrite Hle.
Qed.

Lemma Qred_inject_Z (z : Z) : Qred (inject_Z z) = inject_Z z.
Proof. apply Qred_identity. simpl. apply Z.gcd_1_r. Qed.

(** Below [2^53] an integer has at most 53 significant bits: rounding
    scales it by a power of two, finds an integer, and scales back. *)
Lemma round_Z_small (z : Z) :
  Z.abs z < 2 ^ 53 -> Double.round (inject_Z z) = inject_Z z.
Proof.
  intros Hz. unfold Double.round. rewrite Qred_inject_Z. cbv zeta.
  destruct (Qeq_bool (inject_Z z) 0) eqn:E0.
  - apply Qeq_bool_iff in E0. unfold Qeq in E0. simpl in E0.
    assert (z = 0) as -> by lia. reflexivity.
  - apply Qeq_bool_neq in E0.
    assert (Hz0 : z <> 0) by (intros ->; apply E0; reflexivity).
    assert (Habs : Qabs (inject_Z z) = inject_Z (Z.abs z)) by reflexivity.
    rewrite Habs, ilog2_Z by lia.
    assert (Hlog : Z.log2 (Z.abs z) < 53) by (apply Z.log2_lt_pow2; lia).
    pose proof (Z.log2_nonneg (Z.abs z)) as Hnn.
    set (k := Z.max (Z.log2 (Z.abs z) - 52) (-1074)).
    assert (Hk : k <= 0) by (subst k; lia).
    assert (Hm : Double.nearest_even (inject_Z (Z.abs z) / Double.pow2 k)
                 = Z.abs z * 2 ^ (- k)).
    { apply nearest_even_Z. unfold Qdiv. rewrite pow2_inv by exact Hk.
      now rewrite inject_Z_mult. }
    rewrite Hm.
    assert (Hval : ((if Qle_bool 0 (inject_Z z)
                     then inject_Z (Z.abs z * 2 ^ (- k))
                     else - inject_Z (Z.abs z * 2 ^ (- k))) * Double.pow2 k
                    == inject_Z z)%Q).
    { assert (Hinv : (inject_Z (2 ^ (- k)) * Double.pow2 k == 1)%Q).
      { rewrite <- pow2_inv by exact Hk. field.
        pose proof (pow2_pos k). lra. }
      rewrite inject_Z_mult.
      destruct (Qle_bool 0 (inject_Z z)) eqn:Es.
      - apply Qle_bool_iff in Es. change 0%Q with (inject_Z 0) in Es.
        rewrite <- Zle_Qle in Es. rewrite Z.abs_eq by exact Es.
        rewrite <- Qmult_assoc, Hinv. ring.
      - assert (Hneg : z < 0).
        { destruct (Z.lt_ge_cases z 0) as [|Hge]; [assumption |].
          assert (Qle_bool 0 (inject_Z z) = true); [| congruence].
          apply Qle_bool_iff. change 0%Q with (inject_Z 0).
          now rewrite <- Zle_Qle. }
        rewrite Z.abs_neq by lia. rewrite inject_Z_opp.
        assert (Hre : (- (- inject_Z z * inject_Z (2 ^ (- k))) * Double.pow2 k
                       == inject_Z z * (inject_Z (2 ^ (- k)) * Double.pow2 k))%Q)
          by ring.
        rewrite Hre, Hinv. ring. }
    rewrite (Qred_complete _ _ Hval). apply Qred_inject_Z.
Qed.

Lemma round_Z_safe (z : Z) :
  Double.safe z -> Double.round (inject_Z z) = inject_Z z.
Proof.
  unfold Double.safe. intros Hz.
  destruct (Z.eq_dec (Z.abs z) (2 ^ 53)) as [Heq | Hne].
  - destruct (Z.abs_spec z) as [[_ H] | [_ H]]; rewrite H in Heq.
    + subst z. vm_compute. reflexivity.
    + assert (z = - 2 ^ 53) as -> by lia. vm_compute. reflexivity.
  - apply round_Z_small. lia.
Qed.

(** A top-up that stays within [2^53] is exact. *)
Lemma count_safe (z : Z) : Double.safe z -> Double.count z = z.
Proof.
  intros Hz. unfold Double.count. rewrite round_Z_safe by exact Hz.
  apply Qfloor_Z.
Qed.

(** Rounding depends on the value only, not on the fraction written. *)
Lemma round_proper (x y : Q) : (x == y)%Q -> Double.round x = Double.round y.
Proof. intros H. unfold Double.round. now rewrite (Qred_complete _ _ H). Qed.

Lemma exact_Z (x : Q) (z : Z) :
  (x == inject_Z z)%Q -> Double.safe z -> Double.exact x.
Proof.
  intros Hx Hz. unfold Double.exact.
  rewrite (round_proper _ _ Hx), round_Z_safe by exact Hz. now symmetry.
Qed.

(** ** Purchase *)

Lemma falsy_false (s : string) : JsString.falsy s = false <-> s <> "".
Proof. destruct s; simpl; split; congruence. Qed.

Lemma Qlt_bool_false (a b : Q) : Qlt_bool a b = false <-> (b <= a)%Q.
Proof.
  unfold Qlt_bool. rewrite negb_false_iff. apply Qle_bool_iff.
Qed.

Lemma Qlt_bool_true (a b : Q) : Qlt_bool a b = true <-> (a < b)%Q.
Proof.
  unfold Qlt_bool. rewrite negb_true_iff. split.
  - intros H. apply Qnot_le_lt. intros Hle. apply Qle_bool_iff in Hle. congruence.
  - intros H. destruct (Qle_bool b a) eqn:E; [| reflexivity].
    apply Qle_bool_iff in E. exfalso. apply (Qlt_not_le _ _ H E).
Qed.

Lemma Qle_bool_false (a b : Q) : Qle_bool a b = false <-> (b < a)%Q.
Proof.
  rewrite <- Qlt_bool_true. unfold Qlt_bool. now rewrite negb_true_iff.
Qed.

Lemma transfer_buyer_id newId sellerId tokenId i token n buyer seller :
  User._id (tr_buyer (transfer newId sellerId tokenId i token n buyer seller))
    = User._id buyer.
Proof.
  unfold transfer. cbv zeta.
  destruct (list_find _ _) as [[j t]|]; reflexivity.
Qed.

Lemma transfer_seller_id newId sellerId tokenId i token n buyer seller :
  User._id (tr_seller (transfer newId sellerId tokenId i token n buyer seller))
    = User._id seller.
Proof.
  unfold transfer. cbv zeta.
  destruct (list_find _ _) as [[j t]|]; simpl;
    destruct (_ <=? 0); reflexivity.
Qed.

Lemma transfer_buyer_amount newId sellerId tokenId i token n buyer seller :
  User.amount (tr_buyer (transfer newId sellerId tokenId i token n buyer seller))
    = Double.sub (User.amount buyer)
        (Double.mul (inject_Z n) (TempToken.pricePerToken token)).
Proof.
  unfold transfer. cbv zeta.
  destruct (list_find _ _) as [[j t]|]; reflexivity.
Qed.

Lemma transfer_seller_amount newId sellerId tokenId i token n buyer seller :
  User.amount (tr_seller (transfer newId sellerId tokenId i token n buyer seller))
    = Double.add (User.amount seller)
        (Double.mul (inject_Z n) (TempToken.pricePerToken token)).
Proof.
  unfold transfer. cbv zeta.
  destruct (list_find _ _) as [[j t]|]; simpl;
    destruct (_ <=? 0); reflexivity.
Qed.

Lemma transfer_actualAmount newId sellerId tokenId i token n buyer seller :
  tr_actualAmount (transfer newId sellerId tokenId i token n buyer seller)
    = Double.mul (inject_Z n) (TempToken.pricePerToken token).
Proof.
  unfold transfer. cbv zeta.
  destruct (list_find _ _) as [[j t]|]; reflexivity.
Qed.

Lemma of_account_id (id : string) (o : option Account) (u : User.t) :
  User.of_account id <$> o = Some u -> User._id u = id.
Proof. destruct o; simpl; [intros [= <-]; reflexivity | discriminate]. Qed.

#[local] Arguments transfer : simpl never.
#[local] Arguments purchased : simpl never.

(** Closes a closed goal by evaluating it. *)
Ltac evaluated :=
  vm_compute; first [reflexivity | discriminate | intro; discriminate].

(** Closes the case of a guard that answered at once. *)
Ltac refused :=
  let H := fresh in
  simpl; intros H; inversion H; subst; left;
  split; [reflexivity | split; reflexivity].

Section Purchase.

Variable up : Upstream.

(** Once the bundle is located, the run is decided by the token count. *)
Lemma buy_tokens_located db newId uid body amount buyer seller i token :
  Located db uid body amount buyer seller i token ->
  run up (buy_tokens newId uid body) db =
    match floor_div amount (TempToken.pricePerToken token) with
    | Infinity => (InsufficientSupply, db, [Loaded uid; Loaded (b_sellerId body)])
    | Finite n =>
        if n <=? 0
        then (InvalidAmount, db, [Loaded uid; Loaded (b_sellerId body)])
        else if TempToken.tokensRemaining token <? n
        then (InsufficientSupply, db, [Loaded uid; Loaded (b_sellerId body)])
        else
          let t := transfer newId (b_sellerId body) (b_tokenId body) i token n
                            buyer seller in
          (purchased n t,
           <[b_sellerId body := User.account (tr_seller t)]>
             (<[uid := User.account (tr_buyer t)]> db),
           [Loaded uid; Loaded (b_sellerId body);
            Saved (tr_buyer t); Saved (tr_seller t)])
    end.
Proof.
  intros [Ha Hs Ht Hpos Hb Hf Hsel Htok].
  unfold buy_tokens. rewrite Ha.
  apply falsy_false in Hs, Ht. rewrite Hs, Ht.
  assert (Hle : Qle_bool amount 0 = false) by now apply Qle_bool_false.
  rewrite Hle. simpl. rewrite Hb.
  assert (Hlt : Qlt_bool (User.amount buyer) amount = false)
    by now apply Qlt_bool_false.
  rewrite Hlt. simpl. rewrite Hsel, Htok.
  destruct (floor_div amount (TempToken.pricePerToken token)) as [n|];
    [| reflexivity].
  destruct (n <=? 0); [reflexivity |].
  destruct (TempToken.tokensRemaining token <? n); [reflexivity |].
  simpl.
  rewrite (transfer_buyer_id newId _ _ i token n buyer seller).
  rewrite (transfer_seller_id newId _ _ i token n buyer seller).
  rewrite (of_account_id _ _ _ Hb), (of_account_id _ _ _ Hsel).
  reflexivity.
Qed.

(** The run of an accepted purchase: two loads, the mutation, two saves. *)
Lemma buy_tokens_accepted db newId uid body amount buyer seller i token n :
  Accepted db uid body amount buyer seller i token n ->
  let t := transfer newId (b_sellerId body) (b_tokenId body) i token n
                    buyer seller in
  run up (buy_tokens newId uid body) db =
    (purchased n t,
     <[b_sellerId body := User.account (tr_seller t)]>
       (<[uid := User.account (tr_buyer t)]> db),
     [Loaded uid; Loaded (b_sellerId body);
      Saved (tr_buyer t); Saved (tr_seller t)]).
Proof.
  intros [Hloc Hn Hn0 Hsup] t.
  rewrite (buy_tokens_located _ newId _ _ _ _ _ _ _ Hloc), Hn.
  destruct (Z.leb_spec n 0); [lia |].
  destruct (Z.ltb_spec (TempToken.tokensRemaining token) n); [lia |].
  reflexivity.
Qed.

(** Every run of the handler is either a refusal that saved nothing,
    or the run of an accepted purchase. *)
Lemma buy_tokens_inv db newId uid body r db' tr :
  run up (buy_tokens newId uid body) db = (r, db', tr) ->
  (is_success r = false /\ db' = db /\ saved tr = []) \/
  (exists amount buyer seller i token n,
      Accepted db uid body amount buyer seller i token n).
Proof.
  unfold buy_tokens.
  destruct (b_amount body) as [amount|] eqn:Ha; [| refused].
  destruct (JsString.falsy (b_sellerId body)) eqn:Hs; [refused |].
  destruct (JsString.falsy (b_tokenId body)) eqn:Ht; [refused |].
  destruct (Qle_bool amount 0) eqn:Hle; [refused |].
  simpl.
  destruct (User.of_account uid <$> db !! uid) as [buyer|] eqn:Hb; [| refused].
  destruct (Qlt_bool (User.amount buyer) amount) eqn:Hf; [refused |].
  simpl.
  destruct (User.of_account (b_sellerId body) <$> db !! b_sellerId body)
    as [seller|] eqn:Hsel; [| refused].
  destruct (list_find _ (User.temporaryTokens seller)) as [[i token]|] eqn:Htok;
    [| refused].
  destruct (floor_div amount (TempToken.pricePerToken token)) as [n|] eqn:Hn;
    [| refused].
  destruct (Z.leb_spec n 0); [refused |].
  destruct (Z.ltb_spec (TempToken.tokensRemaining token) n); [refused |].
  intros _. right. exists amount, buyer, seller, i, token, n.
  constructor; [constructor |..]; auto.
  - now apply falsy_false.
  - now apply falsy_false.
  - now apply Qle_bool_false.
  - now apply Qlt_bool_false.
Qed.

(** A successful run is the run of an accepted purchase. *)
Lemma buy_tokens_success db newId uid body r db' tr :
  run up (buy_tokens newId uid body) db = (r, db', tr) ->
  is_success r = true ->
  exists amount buyer seller i token n,
    Accepted db uid body amount buyer seller i token n /\
    let t := transfer newId (b_sellerId body) (b_tokenId body) i token n
                      buyer seller in
    r = purchased n t /\
    db' = <[b_sellerId body := User.account (tr_seller t)]>
            (<[uid := User.account (tr_buyer t)]> db) /\
    tr = [Loaded uid; Loaded (b_sellerId body);
          Saved (tr_buyer t); Saved (tr_seller t)].
Proof.
  intros Hrun Hok.
  destruct (buy_tokens_inv _ _ _ _ _ _ _ Hrun)
    as [(Hno & _) | (amount & buyer & seller & i & token & n & Hacc)];
    [congruence |].
  exists amount, buyer, seller, i, token, n. split; [exact Hacc |].
  rewrite (buy_tokens_accepted _ newId _ _ _ _ _ _ _ _ Hacc) in Hrun.
  cbv zeta in *. inversion Hrun; subst. auto.
Qed.

End Purchase.

(** *** The arithmetic of a purchase *)

Lemma floor_div_finite (amount price : Q) (n : Z) :
  floor_div amount price = Finite n ->
  ~ (price == 0)%Q /\ n = Qfloor (Double.div amount price).
Proof.
  unfold floor_div. destruct (Qeq_bool price 0) eqn:E; [discriminate |].
  intros [= <-]. split; [| reflexivity]. now apply Qeq_bool_neq.
Qed.

(** Where the quotient is floored without rounding: buying at least one
    token for a positive amount means the price is positive, and the
    floor never charges more than was offered. *)
Lemma floor_spend (amount price : Q) :
  (0 < amount)%Q -> 0 < Qfloor (amount / price) ->
  (0 < price)%Q /\ (inject_Z (Qfloor (amount / price)) * price <= amount)%Q.
Proof.
  intros Hpos Hn.
  assert (Hne : ~ (price == 0)%Q).
  { intros H0. rewrite H0 in Hn. unfold Qdiv in Hn.
    assert (Hz : (amount * / 0 == 0)%Q) by (unfold Qinv; simpl; ring).
    rewrite Hz in Hn. exact (Z.lt_irrefl _ Hn). }
  pose proof (Qfloor_le (amount / price)) as Hfl.
  assert (H1 : (1 <= inject_Z (Qfloor (amount / price)))%Q).
  { change 1%Q with (inject_Z 1). rewrite <- Zle_Qle. lia. }
  assert (Hmul : (amount / price * price == amount)%Q)
    by (field; exact Hne).
  set (x := (amount / price)%Q) in *.
  set (k := inject_Z (Qfloor x)) in *.
  assert (Hp : (0 < price)%Q).
  { destruct (Qlt_le_dec 0 price) as [|Hle]; [assumption | exfalso].
    assert (Hlt : (price < 0)%Q).
    { destruct (Qle_lt_or_eq _ _ Hle) as [|Heq]; [assumption | contradiction]. }
    assert (Hx : (1 <= x)%Q) by lra.
    assert (Hneg : (x * price <= 1 * price)%Q) by nra.
    lra. }
  split; [exact Hp |].
  assert (Hk : (k * price <= x * price)%Q) by (apply Qmult_le_compat_r; lra).
  lra.
Qed.

(** *** The seller's listing after a purchase *)

Lemma transfer_seller_tokens newId sellerId tokenId i token n buyer seller :
  User.temporaryTokens
    (tr_seller (transfer newId sellerId tokenId i token n buyer seller)) =
  let l := <[i := TempToken.debit n token]> (User.temporaryTokens seller) in
  if TempToken.tokensRemaining token - n <=? 0
  then filter (fun t => TempToken._id t <> tokenId) l
  else l.
Proof.
  unfold transfer. cbv zeta.
  destruct (list_find _ _) as [[j t]|]; simpl;
    destruct (_ <=? 0); reflexivity.
Qed.

Lemma transfer_buyer_tokens newId sellerId tokenId i token n buyer seller :
  User.temporaryTokens
    (tr_buyer (transfer newId sellerId tokenId i token n buyer seller)) =
  match list_find (fun t => TempToken.name t = TempToken.name token /\
                            TempToken.sellerId t = sellerId)
                  (User.temporaryTokens buyer) with
  | Some (j, t) => <[j := TempToken.add n t]> (User.temporaryTokens buyer)
  | None =>
      (User.temporaryTokens buyer ++
      [ {| TempToken._id := newId;
           TempToken.name := TempToken.name token;
           TempToken.apiKey := TempToken.apiKey token;
           TempToken.apiKeyName := None;
           TempToken.tokensRemaining := n;
           TempToken.expiresAt := TempToken.expiresAt token;
           TempToken.pricePerToken := TempToken.pricePerToken token;
           TempToken.sellerId := User._id seller;
           TempToken.originalApiKeyId := TempToken.originalApiKeyId token |} ])%list
  end.
Proof.
  unfold transfer. cbv zeta. simpl.
  destruct (list_find _ _) as [[j t]|]; reflexivity.
Qed.

(** Replacing the located element by one of the same [_id] keeps it the
    first element with that [_id]. *)
Lemma list_find_id_insert (l : list TempToken.t) (id : string) (i : nat)
    (x y : TempToken.t) :
  list_find (fun t => TempToken._id t = id) l = Some (i, x) ->
  TempToken._id y = id ->
  list_find (fun t => TempToken._id t = id) (<[i := y]> l) = Some (i, y).
Proof.
  intros Hfind Hy. apply list_find_Some in Hfind as (Hi & Hx & Hbefore).
  apply list_find_Some. split; [| split].
  - apply list_lookup_insert_eq. now apply lookup_lt_Some in Hi.
  - exact Hy.
  - intros j z Hj Hlt. rewrite list_lookup_insert_ne in Hj by lia.
    now apply (Hbefore j z).
Qed.

(** *** Tokens and money in a purchase *)




(** Where no operator rounds, the transfer is the one of exact
    arithmetic. *)
Lemma transfer_unrounded newId sellerId tokenId i token n buyer seller amount :
  (0 < amount)%Q -> 0 < n ->
  n = Qfloor (Double.div amount (TempToken.pricePerToken token)) ->
  Unrounded amount (TempToken.pricePerToken token) (User.amount buyer)
            (User.amount seller) ->
  let t := transfer newId sellerId tokenId i token n buyer seller in
  n = Qfloor (amount / TempToken.pricePerToken token) /\
  (tr_actualAmount t == inject_Z n * TempToken.pricePerToken token)%Q /\
  (tr_actualAmount t <= amount)%Q /\
  (User.amount (tr_buyer t) == User.amount buyer - tr_actualAmount t)%Q /\
  (User.amount (tr_seller t) == User.amount seller + tr_actualAmount t)%Q.
Proof.
  intros Hpos Hn Hfloor (Hq & Hm & Hb & Hs) t. subst t.
  rewrite transfer_actualAmount, transfer_buyer_amount, transfer_seller_amount.
  set (price := TempToken.pricePerToken token) in *.
  assert (Hn' : n = Qfloor (amount / price)) by congruence.
  rewrite <- Hn' in Hm, Hb, Hs.
  assert (Hspent : (Double.mul (inject_Z n) price == inject_Z n * price)%Q)
    by exact Hm.
  split; [exact Hn' |]. split; [exact Hspent |]. split; [| split].
  - rewrite Hspent, Hn'. apply floor_spend; [exact Hpos |].
    rewrite <- Hn'. exact Hn.
  - unfold Double.sub.
    rewrite (round_proper _ (User.amount buyer - inject_Z n * price))
      by (rewrite Hspent; reflexivity).
    rewrite Hspent. exact Hb.
  - unfold Double.add.
    rewrite (round_proper _ (User.amount seller + inject_Z n * price))
      by (rewrite Hspent; reflexivity).
    rewrite Hspent. exact Hs.
Qed.





Lemma sample_located (amount : Q) :
  (0 < amount)%Q -> (amount <= 100)%Q ->
  Located Sample.db "buyer" (mkBuyTokensBody "seller" "b1" (Some amount)) amount
          SampleDocs.buyer SampleDocs.seller 0 Sample.bundle.
Proof.
  intros Hpos Hle. constructor; try reflexivity; try discriminate; assumption.
Defined.


(** *** Refused purchases *)

Section Refusals.

Variable up : Upstream.

(** A run that does not succeed has saved nothing. *)
Lemma refused_purchase_unchanged db newId uid body :
  let R := run up (buy_tokens newId uid body) db in
  is_success (response_of R) = false ->
  db_of R = db /\ saved (trace_of R) = [].
Proof.
  intros R Hfail. destruct R as [[r db'] tr] eqn:HR. subst R.
  destruct (buy_tokens_inv up _ _ _ _ _ _ _ HR)
    as [(_ & Hdb & Htr) | (amount & buyer & seller & i & token & n & Hacc)].
  - split; assumption.
  - rewrite (buy_tokens_accepted up _ newId _ _ _ _ _ _ _ _ Hacc) in HR.
    cbv zeta in HR. inversion HR; subst. discriminate Hfail.
Qed.

(** The three lookups that can come back empty, for a well-formed
    request from a buyer who can pay. *)
Lemma purchase_not_found db newId uid body amount :
  b_amount body = Some amount ->
  b_sellerId body <> "" -> b_tokenId body <> "" -> (0 < amount)%Q ->
  let R := run up (buy_tokens newId uid body) db in
  (db !! uid = None -> response_of R = Failure 404 "Buyer not found") /\
  (forall buyer, db !! uid = Some buyer -> (amount <= acc_amount buyer)%Q ->
     (db !! b_sellerId body = None ->
      response_of R = Failure 404 "Seller not found") /\
     (forall seller, db !! b_sellerId body = Some seller ->
        list_find (fun t => TempToken._id t = b_tokenId body)
                  (acc_temporaryTokens seller) = None ->
        response_of R = Failure 404 "Token not found")).
Proof.
  intros Ha Hs Ht Hpos R. subst R. unfold buy_tokens. rewrite Ha.
  apply falsy_false in Hs, Ht. rewrite Hs, Ht.
  assert (Hle : Qle_bool amount 0 = false) by now apply Qle_bool_false.
  rewrite Hle. simpl. split.
  - intros ->. reflexivity.
  - intros buyer -> Hf. simpl.
    assert (Hlt : Qlt_bool (acc_amount buyer) amount = false)
      by now apply Qlt_bool_false.
    rewrite Hlt. simpl. split.
    + intros ->. reflexivity.
    + intros seller -> Hnone. simpl. rewrite Hnone. reflexivity.
Qed.

(** The same request again, once the first has left the bundle listed
    with fewer tokens than the request asks for. *)
Lemma repeated_purchase_refused db newId newId' uid body amount buyer seller
    i token n :
  Accepted db uid body amount buyer seller i token n ->
  let R := run up (buy_tokens newId uid body) db in
  0 < TempToken.tokensRemaining token - n ->
  TempToken.tokensRemaining token - n < n ->
  (exists acc, db_of R !! uid = Some acc /\ (amount <= acc_amount acc)%Q) ->
  run up (buy_tokens newId' uid body) (db_of R)
    = (InsufficientSupply, db_of R, [Loaded uid; Loaded (b_sellerId body)]).
Proof.
  intros Hacc R Hleft Hshort (acc & Hacc' & Hfunds). subst R.
  rewrite (buy_tokens_accepted up _ newId _ _ _ _ _ _ _ _ Hacc) in *.
  cbv zeta in *. unfold db_of in *. simpl in *.
  destruct Hacc as [[Ha Hs Ht Hpos Hb Hf Hsel Htok] Hn Hn0 Hsup].
  set (t := transfer newId (b_sellerId body) (b_tokenId body) i token n
                     buyer seller) in *.
  set (db1 := <[b_sellerId body := User.account (tr_seller t)]>
                (<[uid := User.account (tr_buyer t)]> db)) in *.
  assert (Hloc : Located db1 uid body amount (User.of_account uid acc)
                   (User.of_account (b_sellerId body)
                                    (User.account (tr_seller t)))
                   i (TempToken.debit n token)).
  { constructor; auto.
    - now rewrite Hacc'.
    - subst db1. now rewrite lookup_insert_eq.
    - simpl. subst t. rewrite transfer_seller_tokens. cbv zeta.
      destruct (Z.leb_spec (TempToken.tokensRemaining token - n) 0); [lia |].
      apply list_find_id_insert with (x := token); [exact Htok |].
      apply list_find_Some in Htok. simpl. tauto. }
  rewrite (buy_tokens_located up _ newId' _ _ _ _ _ _ _ Hloc).
  simpl TempToken.pricePerToken. rewrite Hn.
  destruct (Z.leb_spec n 0); [lia |].
  simpl TempToken.tokensRemaining.
  destruct (Z.ltb_spec (TempToken.tokensRemaining token - n) n); [| lia].
  reflexivity.
Qed.

End Refusals.

(** C5. Every failing purchase leaves all state unchanged.  A located
    request fails InvalidAmount when the floor of amount over price is
    not positive and InsufficientSupply when the token count exceeds the
    bundle's supply; a missing buyer, seller or bundle is NotFound; and
    in each case no document is saved.  Repeating a purchase against the
    bundle it left with too few tokens fails InsufficientSupply and
    keeps the state, hence the balances, of the first purchase. *)
Theorem failed_purchase_changes_nothing (up : Upstream) (db : DB)
    (newId uid : string) (body : BuyTokensBody) :
  let R := run up (buy_tokens newId uid body) db in
  (is_success (response_of R) = false ->
   db_of R = db /\ saved (trace_of R) = []) /\
  (forall amount buyer seller i token n,
      Located db uid body amount buyer seller i token ->
      floor_div amount (TempToken.pricePerToken token) = Finite n ->
      (n <= 0 -> response_of R = InvalidAmount /\ db_of R = db) /\
      (0 < n -> TempToken.tokensRemaining token < n ->
       response_of R = InsufficientSupply /\ db_of R = db)) /\
  (forall amount,
      b_amount body = Some amount ->
      b_sellerId body <> "" -> b_tokenId body <> "" -> (0 < amount)%Q ->
      (db !! uid = None -> NotFound (response_of R) /\ db_of R = db) /\
      (forall buyer, db !! uid = Some buyer -> (amount <= acc_amount buyer)%Q ->
         (db !! b_sellerId body = None ->
          NotFound (response_of R) /\ db_of R = db) /\
         (forall seller, db !! b_sellerId body = Some seller ->
            list_find (fun t => TempToken._id t = b_tokenId body)
                      (acc_temporaryTokens seller) = None ->
            NotFound (response_of R) /\ db_of R = db))) /\
  (forall amount buyer seller i token n newId',
      Accepted db uid body amount buyer seller i token n ->
      0 < TempToken.tokensRemaining token - n ->
      TempToken.tokensRemaining token - n < n ->
      (exists acc, db_of R !! uid = Some acc /\ (amount <= acc_amount acc)%Q) ->
      let R2 := run up (buy_tokens newId' uid body) (db_of R) in
      response_of R2 = InsufficientSupply /\
      db_of R2 = db_of R /\
      (forall id, acc_amount <$> db_of R2 !! id = acc_amount <$> db_of R !! id)).
Proof.
  intros R.
  assert (Hfail : is_success (response_of R) = false ->
                  db_of R = db /\ saved (trace_of R) = [])
    by apply refused_purchase_unchanged.
  split; [exact Hfail |]. split; [| split].
  - intros amount buyer seller i token n Hloc Hn. subst R.
    rewrite (buy_tokens_located up _ newId _ _ _ _ _ _ _ Hloc), Hn in *.
    split.
    + intros Hle. destruct (Z.leb_spec n 0); [| lia]. split; reflexivity.
    + intros Hpos Hlt. destruct (Z.leb_spec n 0); [lia |].
      destruct (Z.ltb_spec (TempToken.tokensRemaining token) n); [| lia].
      split; reflexivity.
  - intros amount Ha Hs Ht Hpos.
    destruct (purchase_not_found up db newId uid body amount Ha Hs Ht Hpos)
      as [Hb Hrest]. fold R in Hb, Hrest.
    split.
    + intros Hnone. specialize (Hb Hnone).
      split; [eexists; exact Hb |]. apply Hfail. now rewrite Hb.
    + intros buyer Hbuyer Hf.
      destruct (Hrest buyer Hbuyer Hf) as [Hsel Htok]. split.
      * intros Hnone. specialize (Hsel Hnone).
        split; [eexists; exact Hsel |]. apply Hfail. now rewrite Hsel.
      * intros seller Hseller Hnone. specialize (Htok seller Hseller Hnone).
        split; [eexists; exact Htok |]. apply Hfail. now rewrite Htok.
  - intros amount buyer seller i token n newId' Hacc Hleft Hshort Hfunds R2.
    subst R2 R.
    rewrite (repeated_purchase_refused up db newId newId' uid body amount buyer
               seller i token n Hacc Hleft Hshort Hfunds).
    repeat split.
Qed.

Lemma sample_accepted :
  Accepted Sample.db "buyer" Sample.order 10 SampleDocs.buyer SampleDocs.seller
           0 Sample.bundle 6.
Proof.
  constructor;
    [apply sample_located; [reflexivity | discriminate]
    | reflexivity | reflexivity | discriminate].
Defined.

(** The sample order placed twice: six of the ten tokens go, four are
    left, and the second order for six is refused. *)
Lemma failed_purchase_changes_nothing_witness :
  let R := run Sample.up (buy_tokens "n1" "buyer" Sample.order) Sample.db in
  let R2 := run Sample.up (buy_tokens "n2" "buyer" Sample.order) (db_of R) in
  Accepted Sample.db "buyer" Sample.order 10 SampleDocs.buyer SampleDocs.seller
           0 Sample.bundle 6 /\
  response_of R2 = InsufficientSupply /\
  db_of R2 = db_of R /\
  (forall id, acc_amount <$> db_of R2 !! id = acc_amount <$> db_of R !! id).
Proof.
  intros R R2. split; [exact sample_accepted |].
  destruct (failed_purchase_changes_nothing Sample.up Sample.db "n1" "buyer"
              Sample.order) as (_ & _ & _ & H).
  apply (H 10%Q SampleDocs.buyer SampleDocs.seller 0%nat Sample.bundle 6 "n2"
           sample_accepted).
  - reflexivity.
  - reflexivity.
  - eexists. split; [vm_compute; reflexivity | vm_compute; discriminate].
Defined.

(** *** Merging purchases *)

Local Open Scope list_scope.

Section Snoc.

Context {A : Type} (P : A -> Prop) `{!forall x, Decision (P x)}.




End Snoc.



Lemma sample_accepted_more :
  Accepted SampleDocs.after_first "buyer" SampleDocs.order_more 3
           SampleDocs.buyer1 SampleDocs.seller1 0
           (TempToken.debit 6 Sample.bundle) 2.
Proof.
  constructor; [constructor | ..]; evaluated.
Defined.


(** ** Chat *)

Lemma store_bundle_id keyId i tempKey user :
  User._id (store_bundle keyId i tempKey user) = User._id user.
Proof. unfold store_bundle. cbv zeta. destruct (_ <=? 0); reflexivity. Qed.

#[local] Arguments store_bundle : simpl never.

Section ChatRuns.

Variable up : Upstream.
Variable decrypt : string -> string.

(** Running a sequence is running its parts in order. *)
Lemma run_bind {A B} (m : Prog A) (f : A -> Prog B) (db : DB) :
  run up (bind m f) db =
    let '(a, db1, tr1) := run up m db in
    let '(b, db2, tr2) := run up (f a) db1 in
    (b, db2, tr1 ++ tr2).
Proof.
  revert db. induction m as [a | X e k IH]; intros db; simpl.
  - destruct (run up (f a) db) as [[b db2] tr2]. reflexivity.
  - destruct (perform up e db) as [x db1]. rewrite IH.
    destruct (run up (k x) db1) as [[a db2] tr1].
    destruct (run up (f a) db2) as [[b db3] tr2]. reflexivity.
Qed.

Lemma run_mbind {A B} (m : Prog A) (f : A -> Prog B) (db : DB) :
  run up (m ≫= f) db =
    let '(a, db1, tr1) := run up m db in
    let '(b, db2, tr2) := run up (f a) db1 in
    (b, db2, tr1 ++ tr2).
Proof. exact (run_bind m f db). Qed.

(** A provider handler asks its upstream once and leaves the
    collection alone. *)
Lemma run_provider (p : Provider) (message modelId apiKey : string) (db : DB) :
  run up (handleProviderRequest p message modelId apiKey) db =
    (answer up p message modelId apiKey, db,
     [Asked p apiKey (model_sent p modelId) message]).
Proof.
  unfold answer. destruct p; cbn [handleProviderRequest model_sent].
  - now rewrite !run_handleOpenAIRequest.
  - now rewrite !run_handleAnthropicRequest.
  - now rewrite !run_handleGeminiRequest.
Qed.

Lemma chat_ready_run db uid body user :
  ChatReady db uid body user ->
  run up (chat decrypt uid body) db =
    let '(r, db', tr) :=
      run up (if String.eqb (c_keyType body) "temp"
              then chat_temp decrypt user (c_message body) (c_keyId body)
                             (c_modelId body)
              else if String.eqb (c_keyType body) "user"
              then chat_user decrypt user (c_message body) (c_keyId body)
                             (c_modelId body)
              else mret (Failure 400 "Invalid key type")) db in
    (r, db', Loaded uid :: tr).
Proof.
  intros [Hm Ht Hk Hmod Hu]. unfold chat.
  apply falsy_false in Hm, Ht, Hk, Hmod. rewrite Hm, Ht, Hk, Hmod.
  simpl. rewrite Hu. reflexivity.
Qed.

(** The run of a resolved request on a purchased bundle. *)
Lemma chat_temp_run db uid body user i tempKey seller j originalApiKey p :
  TempResolved db uid body user i tempKey seller j originalApiKey ->
  getProviderFromModel
    (or_else (TempToken.apiKeyName tempKey) (ApiKey.name originalApiKey))
    = Returns p ->
  let apiKey := decrypt (ApiKey.key originalApiKey) in
  let calls := [Loaded uid; Loaded (TempToken.sellerId tempKey);
                Asked p apiKey (model_sent p (c_modelId body))
                      (c_message body)] in
  run up (chat decrypt uid body) db =
    match answer up p (c_message body) (c_modelId body) apiKey with
    | Throws e => (server_error e, db, calls)
    | Returns response =>
        let tokensUsed := totalTokens (usage response) in
        if tokensUsed >? TempToken.tokensRemaining tempKey
        then (Failure 400 "Insufficient tokens for this request.", db, calls)
        else
          let user' :=
            store_bundle (c_keyId body) i
                         (TempToken.debit tokensUsed tempKey) user in
          (Completed (text response) (usage response)
                     (TempToken.tokensRemaining tempKey - tokensUsed),
           <[uid := User.account user']> db,
           calls ++ [Saved user'])
    end.
Proof.
  intros [Hready Hkind Hkey Hrem Hsel Horig] Hp apiKey calls.
  rewrite (chat_ready_run _ _ _ _ Hready), Hkind. simpl String.eqb. cbv iota.
  unfold chat_temp. rewrite Hkey.
  destruct (Z.leb_spec (TempToken.tokensRemaining tempKey) 0); [lia |].
  cbn [mbind Prog_bind bind await run perform]. rewrite Hsel.
  rewrite Horig, Hp.
  rewrite run_mbind, run_provider. fold apiKey. unfold meter_temp.
  destruct (answer up p (c_message body) (c_modelId body) apiKey)
    as [response | e]; [| reflexivity].
  cbv zeta.
  destruct (totalTokens (usage response) >? TempToken.tokensRemaining tempKey);
    [reflexivity |].
  simpl. rewrite store_bundle_id.
  rewrite (of_account_id _ _ _ (cr_user _ _ _ _ Hready)).
  reflexivity.
Qed.

(** The run of a resolved request on an owned key. *)
Lemma chat_user_run db uid body user i userKey p :
  UserResolved db uid body user i userKey ->
  getProviderFromModel (ApiKey.name userKey) = Returns p ->
  let apiKey := decrypt (ApiKey.key userKey) in
  let calls := [Loaded uid;
                Asked p apiKey (model_sent p (c_modelId body))
                      (c_message body)] in
  run up (chat decrypt uid body) db =
    match answer up p (c_message body) (c_modelId body) apiKey with
    | Throws e => (server_error e, db, calls)
    | Returns response =>
        let tokensUsed := totalTokens (usage response) in
        if ApiKey.available userKey <? tokensUsed
        then (Failure 400 "Insufficient available tokens for this request.",
              db, calls)
        else
          let user' :=
            User.set_api_keys
              (<[i := ApiKey.debit tokensUsed userKey]> (User.api_keys user))
              user in
          (Completed (text response) (usage response)
                     (ApiKey.available userKey - tokensUsed),
           <[uid := User.account user']> db,
           calls ++ [Saved user'])
    end.
Proof.
  intros [Hready Hkind Hkey] Hp apiKey calls.
  rewrite (chat_ready_run _ _ _ _ Hready), Hkind. simpl String.eqb. cbv iota.
  unfold chat_user. rewrite Hkey, Hp.
  rewrite run_mbind, run_provider. fold apiKey.
  destruct (answer up p (c_message body) (c_modelId body) apiKey)
    as [response | e]; [| reflexivity].
  cbv zeta.
  destruct (ApiKey.available userKey <? totalTokens (usage response));
    [reflexivity |].
  simpl. rewrite (of_account_id _ _ _ (cr_user _ _ _ _ Hready)).
  reflexivity.
Qed.

End ChatRuns.

(** C8. A chat request, on an owned key or on a purchased bundle, whose
    [tokensUsed] exceeds what the quota source has left fails with
    InsufficientTokens and performs no debit: nothing is saved, so the
    key's [available] or the bundle's [tokensRemaining] is what it was. *)
Theorem overdraft_is_refused (up : Upstream) (decrypt : string -> string)
    (db : DB) (uid : string) (body : ChatBody) (provider : Provider)
    (key : string) (remaining : Z) (response : ProviderResponse) :
  QuotaSource db uid body provider key remaining ->
  answer up provider (c_message body) (c_modelId body) (decrypt key)
    = Returns response ->
  remaining < totalTokens (usage response) ->
  let R := run up (chat decrypt uid body) db in
  InsufficientTokens (response_of R) /\
  db_of R = db /\
  saved (trace_of R) = [] /\
  asked (trace_of R) = [provider] /\
  QuotaSource (db_of R) uid body provider key remaining.
Proof.
  intros Hsrc Hans Hover R.
  assert (H : InsufficientTokens (response_of R) /\ db_of R = db /\
              saved (trace_of R) = [] /\ asked (trace_of R) = [provider]).
  { subst R. destruct Hsrc as
        [user i tempKey seller j originalApiKey provider Hres Hp
        | user i userKey provider Hres Hp].
    - rewrite (chat_temp_run up decrypt _ _ _ _ _ _ _ _ _ _ Hres Hp).
      cbv zeta. rewrite Hans.
      destruct (Z.gtb_spec (totalTokens (usage response))
                           (TempToken.tokensRemaining tempKey)); [| lia].
      repeat split. now left.
    - rewrite (chat_user_run up decrypt _ _ _ _ _ _ _ Hres Hp).
      cbv zeta. rewrite Hans.
      destruct (Z.ltb_spec (ApiKey.available userKey)
                           (totalTokens (usage response))); [| lia].
      repeat split. now right. }
  destruct H as (Hr & Hdb & Hsaved & Hasked).
  repeat split; try assumption. now rewrite Hdb.
Qed.

Lemma held_resolved (message : string) :
  message <> "" ->
  TempResolved Held.db "buyer"
    (mkChatBody message "temp" "n1" "claude-3-opus-20240229")
    Held.buyer 0 Held.bought Held.seller 0 Sample.key.
Proof.
  intros Hm.
  constructor; [constructor | ..]; try reflexivity; try discriminate.
  exact Hm.
Defined.

Lemma held_source (message : string) :
  message <> "" ->
  QuotaSource Held.db "buyer"
    (mkChatBody message "temp" "n1" "claude-3-opus-20240229")
    anthropic "enc:sk-ant" 6.
Proof.
  intros Hm.
  exact (purchased_source _ _ _ _ _ _ _ _ _ anthropic
           (held_resolved message Hm) eq_refl).
Defined.

(** Eight tokens asked of the six the buyer holds. *)
Lemma overdraft_is_refused_witness :
  let R := run Sample.up (chat Sample.decrypt "buyer" Held.question)
               Held.db in
  QuotaSource Held.db "buyer" Held.question
              anthropic "enc:sk-ant" 6 /\
  6 < totalTokens (usage (estimate "Explain recursion" "Hi there!")) /\
  InsufficientTokens (response_of R) /\
  db_of R = Held.db /\
  saved (trace_of R) = [] /\
  asked (trace_of R) = [anthropic] /\
  QuotaSource (db_of R) "buyer" Held.question anthropic "enc:sk-ant" 6.
Proof.
  intros R.
  assert (Hm : "Explain recursion" <> "") by discriminate.
  split; [exact (held_source _ Hm) |]. split; [reflexivity |].
  exact (overdraft_is_refused Sample.up Sample.decrypt Held.db
           "buyer" Held.question anthropic "enc:sk-ant" 6
           (estimate "Explain recursion" "Hi there!")
           (held_source _ Hm) eq_refl eq_refl).
Defined.

(** *** Expiry *)

(** The held bundle expired on 2026-01-01; on 2026-11-02 a question put
    to it is still sent to Anthropic, answered and debited. *)
Lemma expired_bundle_is_served :
  let now := 1793577600 in
  let R := run Sample.up (chat Sample.decrypt "buyer" Held.short_question)
               Held.db in
  list_find (fun k => TempToken._id k = c_keyId Held.short_question)
            (User.temporaryTokens Held.buyer)
    = Some (0%nat, Held.bought) /\
  TempToken.expiresAt Held.bought < now /\
  response_of R = Completed "Hi there!" (mkUsage 2 3 5) 1 /\
  is_success (response_of R) = true /\
  asked (trace_of R) = [anthropic].
Proof. repeat split. Qed.

(** C7, as the handler has it.  The chat handler never compares
    [expiresAt] with the current time: a purchased bundle whose
    [expiresAt] is earlier than now, and which holds tokens, whose seller
    and original key exist and whose provider can be inferred, is
    resolved; the upstream provider is called once, and the request is
    answered as for any other bundle: the upstream's error, or
    InsufficientTokens, or the completion. *)
Theorem expired_bundle_is_resolved (up : Upstream) (decrypt : string -> string)
    (db : DB) (uid : string) (body : ChatBody) (user : User.t) (i : nat)
    (tempKey : TempToken.t) (seller : User.t) (j : nat)
    (originalApiKey : ApiKey.t) (provider : Provider) (now : Z) :
  TempResolved db uid body user i tempKey seller j originalApiKey ->
  getProviderFromModel
    (or_else (TempToken.apiKeyName tempKey) (ApiKey.name originalApiKey))
    = Returns provider ->
  TempToken.expiresAt tempKey < now ->
  let R := run up (chat decrypt uid body) db in
  asked (trace_of R) = [provider] /\
  match answer up provider (c_message body) (c_modelId body)
               (decrypt (ApiKey.key originalApiKey)) with
  | Throws e => response_of R = server_error e
  | Returns response =>
      let tokensUsed := totalTokens (usage response) in
      if tokensUsed >? TempToken.tokensRemaining tempKey
      then response_of R = Failure 400 "Insufficient tokens for this request."
      else response_of R =
             Completed (text response) (usage response)
                       (TempToken.tokensRemaining tempKey - tokensUsed)
  end.
Proof.
  intros Hres Hp _ R. subst R.
  rewrite (chat_temp_run up decrypt _ _ _ _ _ _ _ _ _ _ Hres Hp). cbv zeta.
  destruct (answer up provider (c_message body) (c_modelId body)
                   (decrypt (ApiKey.key originalApiKey))) as [response | e].
  - destruct (totalTokens (usage response) >? TempToken.tokensRemaining tempKey);
      split; reflexivity.
  - split; reflexivity.
Qed.

(** The expired bundle, resolved. *)
Lemma expired_bundle_is_resolved_witness :
  let now := 1793577600 in
  let R := run Sample.up (chat Sample.decrypt "buyer" Held.short_question)
               Held.db in
  TempResolved Held.db "buyer" Held.short_question
    Held.buyer 0 Held.bought Held.seller 0 Sample.key /\
  TempToken.expiresAt Held.bought < now /\
  asked (trace_of R) = [anthropic] /\
  match answer Sample.up anthropic (c_message Held.short_question)
               (c_modelId Held.short_question)
               (Sample.decrypt (ApiKey.key Sample.key)) with
  | Throws e => response_of R = server_error e
  | Returns response =>
      let tokensUsed := totalTokens (usage response) in
      if tokensUsed >? TempToken.tokensRemaining Held.bought
      then response_of R = Failure 400 "Insufficient tokens for this request."
      else response_of R =
             Completed (text response) (usage response)
                       (TempToken.tokensRemaining Held.bought - tokensUsed)
  end.
Proof.
  intros now R.
  assert (Hm : "Hello" <> "") by discriminate.
  split; [exact (held_resolved _ Hm) |]. split; [reflexivity |].
  exact (expired_bundle_is_resolved Sample.up Sample.decrypt
           Held.db "buyer" Held.short_question
           Held.buyer 0 Held.bought Held.seller 0
           Sample.key anthropic now (held_resolved _ Hm) eq_refl eq_refl).
Defined.

(** *** The provider of a purchased bundle *)

Lemma PurchaseCreated_apiKeyName (t : TempToken.t) :
  PurchaseCreated t -> TempToken.apiKeyName t = None.
Proof. induction 1; simpl; auto. Qed.

Lemma transfer_pushes_created newId sellerId tokenId i token n buyer seller :
  list_find (fun t => TempToken.name t = TempToken.name token /\
                      TempToken.sellerId t = sellerId)
            (User.temporaryTokens buyer) = None ->
  let t := transfer newId sellerId tokenId i token n buyer seller in
  PurchaseCreated (tr_purchasedToken t) /\
  User.temporaryTokens (tr_buyer t)
    = User.temporaryTokens buyer ++ [tr_purchasedToken t].
Proof.
  intros Hnone. unfold transfer. cbv zeta. simpl in *. rewrite Hnone.
  split; [apply created_new | reflexivity].
Qed.

Section ChatProvider.

Variable up : Upstream.
Variable decrypt : string -> string.

(** A resolved bundle whose provider cannot be inferred: the throw of
    line 16 is caught at line 273, before any upstream call. *)
Lemma chat_temp_unknown db uid body user i tempKey seller j originalApiKey e :
  TempResolved db uid body user i tempKey seller j originalApiKey ->
  getProviderFromModel
    (or_else (TempToken.apiKeyName tempKey) (ApiKey.name originalApiKey))
    = Throws e ->
  run up (chat decrypt uid body) db =
    (server_error e, db, [Loaded uid; Loaded (TempToken.sellerId tempKey)]).
Proof.
  intros [Hready Hkind Hkey Hrem Hsel Horig] Hp.
  rewrite (chat_ready_run up decrypt _ _ _ _ Hready), Hkind.
  simpl String.eqb. cbv iota.
  unfold chat_temp. rewrite Hkey.
  destruct (Z.leb_spec (TempToken.tokensRemaining tempKey) 0); [lia |].
  cbn [mbind Prog_bind bind await run perform]. rewrite Hsel.
  rewrite Horig, Hp. reflexivity.
Qed.

Lemma chat_temp_asked db uid body user i tempKey seller j originalApiKey p :
  TempResolved db uid body user i tempKey seller j originalApiKey ->
  getProviderFromModel
    (or_else (TempToken.apiKeyName tempKey) (ApiKey.name originalApiKey))
    = Returns p ->
  asked (trace_of (run up (chat decrypt uid body) db)) = [p].
Proof.
  intros Hres Hp.
  rewrite (chat_temp_run up decrypt _ _ _ _ _ _ _ _ _ _ Hres Hp). cbv zeta.
  destruct (answer up p _ _ _) as [response | e]; [| reflexivity].
  destruct (_ >? _); reflexivity.
Qed.

End ChatProvider.

(** C10. A chat request served from a bundle that Purchase created infers
    the provider from the name of the seller's original key, not from
    the bundle's own name: the handler reads the bundle's [apiKeyName]
    first and falls back to the original key's name, and Purchase never
    sets [apiKeyName] on the bundle it pushes, so the fallback is always
    the name used. *)
Theorem purchased_bundle_uses_original_key_name (up : Upstream)
    (decrypt : string -> string) (db : DB) (uid : string) (body : ChatBody)
    (user : User.t) (i : nat) (tempKey : TempToken.t) (seller : User.t)
    (j : nat) (originalApiKey : ApiKey.t) :
  TempResolved db uid body user i tempKey seller j originalApiKey ->
  PurchaseCreated tempKey ->
  let R := run up (chat decrypt uid body) db in
  (forall newId sellerId tokenId i' token n buyer s,
      list_find (fun t => TempToken.name t = TempToken.name token /\
                          TempToken.sellerId t = sellerId)
                (User.temporaryTokens buyer) = None ->
      let t := transfer newId sellerId tokenId i' token n buyer s in
      PurchaseCreated (tr_purchasedToken t) /\
      TempToken.apiKeyName (tr_purchasedToken t) = None /\
      User.temporaryTokens (tr_buyer t)
        = User.temporaryTokens buyer ++ [tr_purchasedToken t]) /\
  TempToken.apiKeyName tempKey = None /\
  or_else (TempToken.apiKeyName tempKey) (ApiKey.name originalApiKey)
    = ApiKey.name originalApiKey /\
  match getProviderFromModel (ApiKey.name originalApiKey) with
  | Returns p => asked (trace_of R) = [p]
  | Throws e => asked (trace_of R) = [] /\ response_of R = server_error e
  end.
Proof.
  intros Hres Hcreated R.
  pose proof (PurchaseCreated_apiKeyName _ Hcreated) as Hnone.
  split; [| split; [exact Hnone | split; [now rewrite Hnone |]]].
  - intros newId sellerId tokenId i' token n buyer s Hfind t.
    destruct (transfer_pushes_created newId sellerId tokenId i' token n buyer s
                Hfind) as [Hc Hl].
    split; [exact Hc | split; [| exact Hl]].
    now apply PurchaseCreated_apiKeyName.
  - subst R.
    destruct (getProviderFromModel (ApiKey.name originalApiKey)) as [p | e] eqn:Hp.
    + apply (chat_temp_asked up decrypt _ _ _ _ _ _ _ _ _ _ Hres).
      now rewrite Hnone.
    + rewrite (chat_temp_unknown up decrypt _ _ _ _ _ _ _ _ _ e Hres)
        by now rewrite Hnone.
      split; reflexivity.
Qed.

(** The held bundle is named for GPT-4 but carved from a Claude key:
    the question goes to Anthropic. *)
Lemma purchased_bundle_uses_original_key_name_witness :
  let R := run Sample.up (chat Sample.decrypt "buyer" Held.question)
               Held.db in
  TempResolved Held.db "buyer" Held.question
    Held.buyer 0 Held.bought Held.seller 0 Sample.key /\
  PurchaseCreated Held.bought /\
  getProviderFromModel (TempToken.name Held.bought) = Returns openai /\
  getProviderFromModel (ApiKey.name Sample.key) = Returns anthropic /\
  asked (trace_of R) = [anthropic].
Proof.
  intros R.
  assert (Hm : "Explain recursion" <> "") by discriminate.
  assert (Hc : PurchaseCreated Held.bought)
    by exact (created_new "n1" SampleDocs.seller Sample.bundle 6).
  split; [exact (held_resolved _ Hm) |]. split; [exact Hc |].
  split; [reflexivity |]. split; [reflexivity |].
  exact (proj2 (proj2 (proj2
           (purchased_bundle_uses_original_key_name Sample.up Sample.decrypt
              Held.db "buyer" Held.question
              Held.buyer 0 Held.bought Held.seller 0
              Sample.key (held_resolved _ Hm) Hc)))).
Defined.

(** ** Requests taking turns *)

Section Turns.

Variable up : Upstream.

(** A request that is given every turn runs as it does alone. *)
Lemma run_schedule_alone {A} (p : Prog A) (db : DB) :
  exists n,
    run_schedule up (replicate n 0%nat) [p] db
      = ([Ret (response_of (run up p db))], db_of (run up p db)).
Proof.
  revert db. induction p as [a | X e k IH]; intros db.
  - exists 0%nat. reflexivity.
  - destruct (perform up e db) as [x db1] eqn:He.
    destruct (IH x db1) as [n Hn]. exists (S n).
    cbn [replicate run_schedule]. simpl lookup. cbv iota beta.
    cbn [resume]. rewrite He. simpl. rewrite Hn.
    unfold response_of, db_of. simpl. rewrite He.
    destruct (run up (k x) db1) as [[a db2] tr]. reflexivity.
Qed.

End Turns.

(** ** Two debits of one quota source *)

Lemma interleavings_complete (a b : nat) (sched : list nat) :
  Interleaving a b sched -> In sched (interleavings a b).
Proof.
  induction 1 as [| a b sched _ IH | a b sched _ IH].
  - simpl. now left.
  - destruct b; simpl.
    + now apply in_map.
    + apply in_or_app. left. now apply in_map.
  - destruct a; simpl.
    + now apply in_map.
    + apply in_or_app. right. now apply in_map.
Qed.

(** The two requests of the race, taking turns: the second loads the
    bundle while it still reads ten, so both pass the check and both
    are completed. *)
Lemma overlapping_debits_both_succeed :
  let out := run_schedule Race.up Race.overlapped Race.threads Race.db in
  Interleaving 4 4 Race.overlapped /\
  stored_tokensRemaining Race.db "carol" "q1" = Some 10 /\
  map finished out.1
    = [Some (Completed "pong" (mkUsage 4 2 6) 4);
       Some (Completed "pong" (mkUsage 4 2 6) 4)] /\
  successes out.1 = 2%nat /\
  overdrafts out.1 = 0%nat /\
  stored_tokensRemaining out.2 "carol" "q1" = Some 4.
Proof.
  split; [repeat constructor |]. repeat split.
Qed.

Lemma verdicts : Forall verdict (interleavings 4 4).
Proof.
  apply (bool_decide_unpack _). vm_compute. exact I.
Qed.

Lemma is_overdraft_spec (r : Response) :
  is_overdraft r = true <-> InsufficientTokens r.
Proof.
  unfold InsufficientTokens. split.
  - destruct r as [status m | | |]; simpl; try discriminate.
    rewrite andb_true_iff, orb_true_iff, Z.eqb_eq, !String.eqb_eq.
    intros [-> [-> | ->]]; auto.
  - intros [-> | ->]; reflexivity.
Qed.

Section TwoRequests.

Variable up : Upstream.
Variable decrypt : string -> string.
Variables (db : DB) (uid : string) (body : ChatBody).
Variables (user : User.t) (i : nat) (tempKey : TempToken.t).
Variables (seller : User.t) (j : nat) (originalApiKey : ApiKey.t).
Variables (provider : Provider) (response : ProviderResponse).

Hypothesis Hres :
  TempResolved db uid body user i tempKey seller j originalApiKey.
Hypothesis Hprovider :
  getProviderFromModel
    (or_else (TempToken.apiKeyName tempKey) (ApiKey.name originalApiKey))
    = Returns provider.
Hypothesis Hanswer :
  answer up provider (c_message body) (c_modelId body)
         (decrypt (ApiKey.key originalApiKey)) = Returns response.

(** One debit fits, two do not. *)
Hypothesis Hone :
  totalTokens (usage response) < TempToken.tokensRemaining tempKey.
Hypothesis Htwo :
  TempToken.tokensRemaining tempKey < 2 * totalTokens (usage response).

Local Abbreviation stage :=
  (at_stage decrypt uid body user i tempKey provider
            (decrypt (ApiKey.key originalApiKey)) response).
Local Abbreviation coll := (collection db uid body user i tempKey response).
Local Abbreviation after := (user_after body user i tempKey response).
Local Abbreviation spent := (debited tempKey response).
Local Abbreviation user_copy := (copy_of_user body user i tempKey response).
Local Abbreviation bundle_copy := (copy_of_bundle tempKey response).

Lemma user_after_tokens :
  User.temporaryTokens after = <[i := spent]> (User.temporaryTokens user).
Proof.
  unfold user_after, store_bundle, debited. cbv zeta. simpl.
  destruct (Z.leb_spec
              (TempToken.tokensRemaining tempKey - totalTokens (usage response))
              0); [lia | reflexivity].
Qed.

Lemma user_after_id : User._id after = uid.
Proof.
  unfold user_after. rewrite store_bundle_id.
  exact (of_account_id _ _ _ (cr_user _ _ _ _ (tk_ready _ _ _ _ _ _ _ _ _ Hres))).
Qed.

Lemma user_after_api_keys : User.api_keys after = User.api_keys user.
Proof.
  unfold user_after, store_bundle. cbv zeta. destruct (_ <=? 0); reflexivity.
Qed.

Lemma of_account_account (u : User.t) :
  User.of_account (User._id u) (User.account u) = u.
Proof. destruct u; reflexivity. Qed.

(** What a request finds when it loads the user. *)
Lemma load_user (written : bool) :
  User.of_account uid <$> coll written !! uid
    = Some (user_copy (negb written)).
Proof.
  destruct written; simpl.
  - rewrite lookup_insert_eq. simpl.
    rewrite <- user_after_id at 1. now rewrite of_account_account.
  - exact (cr_user _ _ _ _ (tk_ready _ _ _ _ _ _ _ _ _ Hres)).
Qed.

Lemma find_bundle (fresh : bool) :
  list_find (fun k => TempToken._id k = c_keyId body)
            (User.temporaryTokens (user_copy fresh))
    = Some (i, bundle_copy fresh).
Proof.
  pose proof (tk_key _ _ _ _ _ _ _ _ _ Hres) as Hkey.
  destruct fresh; simpl; [exact Hkey |].
  rewrite user_after_tokens.
  apply list_find_id_insert with (x := tempKey); [exact Hkey |].
  apply list_find_Some in Hkey. simpl. tauto.
Qed.

(** The seller's keys are the same before and after the debit, also
    when the user bought from their own listing. *)
Lemma load_seller (written : bool) :
  exists s,
    User.of_account (TempToken.sellerId tempKey)
      <$> coll written !! TempToken.sellerId tempKey = Some s /\
    User.api_keys s = User.api_keys seller.
Proof.
  pose proof (tk_seller _ _ _ _ _ _ _ _ _ Hres) as Hsel.
  destruct written; simpl; [| eauto].
  destruct (decide (uid = TempToken.sellerId tempKey)) as [Heq | Hne].
  - rewrite <- Heq in *. rewrite lookup_insert_eq. simpl.
    eexists. split; [reflexivity |]. simpl.
    rewrite user_after_api_keys.
    pose proof (cr_user _ _ _ _ (tk_ready _ _ _ _ _ _ _ _ _ Hres)) as Hu.
    rewrite Hu in Hsel. now injection Hsel as <-.
  - rewrite lookup_insert_ne by exact Hne. eauto.
Qed.

(** Asking the provider is one turn, whatever the collection holds. *)
Lemma resume_provider (p : Provider) (message modelId apiKey : string)
    (k : Exc ProviderResponse -> Prog Response) (d : DB) :
  resume up (handleProviderRequest p message modelId apiKey ≫= k) d
    = (k (answer up p message modelId apiKey), d).
Proof.
  unfold answer. destruct p; cbn [handleProviderRequest].
  - rewrite run_handleOpenAIRequest. unfold handleOpenAIRequest. simpl.
    destruct (openai_create up apiKey modelId message); reflexivity.
  - rewrite run_handleAnthropicRequest. unfold handleAnthropicRequest. simpl.
    destruct (anthropic_create up apiKey modelId message); reflexivity.
  - rewrite run_handleGeminiRequest. unfold handleGeminiRequest. simpl.
    destruct (gemini_sendMessage up apiKey _ message); reflexivity.
Qed.

(** Each turn of the handler is a turn of its stage. *)
Lemma resume_stage (s : Stage) (written : bool) :
  resume up (stage s) (coll written)
    = (stage (turn s written).1, coll (turn s written).2).
Proof.
  destruct Hres as [[Hm Ht Hk Hmod Hu] Hkind Hkey Hrem Hsel Horig].
  destruct s as [| fresh | fresh | | served]; cbn [turn fst snd].
  - cbn [at_stage]. unfold chat.
    apply falsy_false in Hm, Ht, Hk, Hmod. rewrite Hm, Ht, Hk, Hmod.
    cbn [orb mbind Prog_bind bind await resume perform].
    rewrite load_user, Hkind. reflexivity.
  - cbn [at_stage]. unfold chat_temp. rewrite find_bundle.
    assert (Hpos : 0 < TempToken.tokensRemaining (bundle_copy fresh))
      by (destruct fresh; simpl; lia).
    destruct (Z.leb_spec (TempToken.tokensRemaining (bundle_copy fresh)) 0);
      [lia |].
    cbn [mbind Prog_bind bind await resume perform].
    assert (Hsame : TempToken.sellerId (bundle_copy fresh)
                    = TempToken.sellerId tempKey) by (destruct fresh; reflexivity).
    assert (Horiginal : TempToken.originalApiKeyId (bundle_copy fresh)
                        = TempToken.originalApiKeyId tempKey)
      by (destruct fresh; reflexivity).
    assert (Hname : TempToken.apiKeyName (bundle_copy fresh)
                    = TempToken.apiKeyName tempKey) by (destruct fresh; reflexivity).
    rewrite Hsame, Horiginal, Hname.
    destruct (load_seller written) as (s & -> & Hkeys).
    rewrite Hkeys, Horig, Hprovider. reflexivity.
  - cbn [at_stage]. rewrite resume_provider, Hanswer. unfold meter_temp.
    destruct fresh; simpl copy_of_bundle; simpl copy_of_user.
    + destruct (Z.gtb_spec (totalTokens (usage response))
                           (TempToken.tokensRemaining tempKey)); [lia |].
      reflexivity.
    + unfold debited at 1. simpl TempToken.tokensRemaining.
      destruct (Z.gtb_spec (totalTokens (usage response))
                  (TempToken.tokensRemaining tempKey
                   - totalTokens (usage response))); [| lia].
      reflexivity.
  - cbn [at_stage resume perform]. rewrite user_after_id.
    destruct written; simpl; [| reflexivity].
    now rewrite insert_insert_eq.
  - destruct served; reflexivity.
Qed.

(** Two requests in flight follow the two stages. *)
Lemma play_simulates (sched : list nat) (a b : Stage) (written : bool) :
  run_schedule up sched [stage a; stage b] (coll written) =
    let out := play sched a b written in
    ([stage out.1.1; stage out.1.2], coll out.2).
Proof.
  revert a b written.
  induction sched as [| [| [| n]] sched IH]; intros a b written.
  - reflexivity.
  - cbn [run_schedule play]. simpl lookup. cbv iota beta.
    rewrite resume_stage. destruct (turn a written) as [a' w']. simpl.
    apply IH.
  - cbn [run_schedule play]. simpl lookup. cbv iota beta.
    rewrite resume_stage. destruct (turn b written) as [b' w']. simpl.
    apply IH.
  - cbn [run_schedule play]. simpl lookup. cbv iota beta. apply IH.
Qed.

Lemma stored_after_debit :
  stored_tokensRemaining (coll true) uid (c_keyId body)
    = Some (TempToken.tokensRemaining tempKey - totalTokens (usage response)).
Proof.
  unfold stored_tokensRemaining. simpl. rewrite lookup_insert_eq. simpl.
  pose proof (find_bundle false) as Hfind. simpl in Hfind.
  rewrite Hfind. reflexivity.
Qed.

Lemma served_stage (s : Stage) : served s = true -> s = Finished true.
Proof. destruct s as [| | | | []]; simpl; congruence. Qed.

Lemma refused_stage (s : Stage) : refused s = true -> s = Finished false.
Proof. destruct s as [| | | | []]; simpl; congruence. Qed.

(** Every interleaving of the two requests' four turns. *)
Lemma two_requests (sched : list nat) :
  Interleaving 4 4 sched ->
  let out := run_schedule up sched [chat decrypt uid body; chat decrypt uid body]
                          db in
  stored_tokensRemaining out.2 uid (c_keyId body)
    = Some (TempToken.tokensRemaining tempKey - totalTokens (usage response)) /\
  (serial 4 sched = true ->
   successes out.1 = 1%nat /\ overdrafts out.1 = 1%nat) /\
  (serial 4 sched = false ->
   successes out.1 = 2%nat /\ overdrafts out.1 = 0%nat).
Proof.
  intros Hsched out. subst out.
  apply interleavings_complete in Hsched.
  pose proof (proj1 (List.Forall_forall _ _) verdicts sched Hsched) as Hv.
  clear Hsched. unfold verdict in Hv. cbv zeta in Hv.
  change (run_schedule up sched
            [chat decrypt uid body; chat decrypt uid body] db)
    with (run_schedule up sched [stage AtStart; stage AtStart] (coll false)).
  rewrite play_simulates. cbv zeta.
  destruct (play sched AtStart AtStart false) as [[a b] w].
  cbn [fst snd] in *. destruct Hv as (-> & Hserial & Hoverlap).
  split; [apply stored_after_debit |]. split.
  - intros Hs. destruct (Hserial Hs) as [[Ha Hb] | [Ha Hb]].
    + apply served_stage in Ha. apply refused_stage in Hb. subst.
      split; reflexivity.
    + apply refused_stage in Ha. apply served_stage in Hb. subst.
      split; reflexivity.
  - intros Hs. destruct (Hoverlap Hs) as [Ha Hb].
    apply served_stage in Ha. apply served_stage in Hb. subst.
    split; reflexivity.
Qed.

End TwoRequests.

(** C9, as the handler has it.  Two chat requests debit one purchased
    bundle that holds 10 tokens, each at a cost of 6.  The handler checks
    and debits the copy of the bundle it loaded before the upstream call
    and then saves that copy.  When one request answers before the other
    loads the account, exactly one succeeds and the other is refused
    with InsufficientTokens; in every other interleaving of their turns
    both succeed.  In all of them the stored counter ends at 4, never
    below zero. *)
Theorem concurrent_debits_by_schedule (up : Upstream)
    (decrypt : string -> string) (db : DB) (uid : string) (body : ChatBody)
    (user : User.t) (i : nat) (tempKey : TempToken.t) (seller : User.t)
    (j : nat) (originalApiKey : ApiKey.t) (provider : Provider)
    (response : ProviderResponse) (sched : list nat) :
  TempResolved db uid body user i tempKey seller j originalApiKey ->
  getProviderFromModel
    (or_else (TempToken.apiKeyName tempKey) (ApiKey.name originalApiKey))
    = Returns provider ->
  answer up provider (c_message body) (c_modelId body)
         (decrypt (ApiKey.key originalApiKey)) = Returns response ->
  TempToken.tokensRemaining tempKey = 10 ->
  totalTokens (usage response) = 6 ->
  Interleaving 4 4 sched ->
  let out := run_schedule up sched [chat decrypt uid body; chat decrypt uid body]
                          db in
  stored_tokensRemaining out.2 uid (c_keyId body) = Some 4 /\
  (serial 4 sched = true ->
   successes out.1 = 1%nat /\ overdrafts out.1 = 1%nat) /\
  (serial 4 sched = false ->
   successes out.1 = 2%nat /\ overdrafts out.1 = 0%nat).
Proof.
  intros Hres Hp Hans Hten Hsix Hsched.
  assert (Hone : totalTokens (usage response) < TempToken.tokensRemaining tempKey)
    by lia.
  assert (Htwo : TempToken.tokensRemaining tempKey
                 < 2 * totalTokens (usage response)) by lia.
  pose proof (two_requests up decrypt db uid body user i tempKey seller j
                originalApiKey provider response Hres Hp Hans Hone Htwo
                sched Hsched) as H.
  rewrite Hten, Hsix in H. exact H.
Qed.

Lemma race_resolved :
  TempResolved Race.db "carol" Race.request Race.carol 0 Race.bundle
               Race.seller 0 Race.key.
Proof.
  constructor; [constructor | ..]; try reflexivity; discriminate.
Defined.

(** The second request starts after the first has answered. *)
Lemma concurrent_debits_by_schedule_witness :
  let out := run_schedule Race.up Race.one_after_the_other Race.threads
                          Race.db in
  TempResolved Race.db "carol" Race.request Race.carol 0 Race.bundle
               Race.seller 0 Race.key /\
  answer Race.up openai (c_message Race.request) (c_modelId Race.request)
         (Sample.decrypt (ApiKey.key Race.key)) = Returns Race.reply /\
  TempToken.tokensRemaining Race.bundle = 10 /\
  totalTokens (usage Race.reply) = 6 /\
  Interleaving 4 4 Race.one_after_the_other /\
  stored_tokensRemaining out.2 "carol" "q1" = Some 4 /\
  (serial 4 Race.one_after_the_other = true ->
   successes out.1 = 1%nat /\ overdrafts out.1 = 1%nat) /\
  (serial 4 Race.one_after_the_other = false ->
   successes out.1 = 2%nat /\ overdrafts out.1 = 0%nat).
Proof.
  intros out.
  assert (H : Interleaving 4 4 Race.one_after_the_other)
    by repeat constructor.
  split; [exact race_resolved |]. split; [reflexivity |].
  split; [reflexivity |]. split; [reflexivity |]. split; [exact H |].
  exact (concurrent_debits_by_schedule Race.up Sample.decrypt Race.db "carol"
           Race.request Race.carol 0 Race.bundle Race.seller 0 Race.key
           openai Race.reply Race.one_after_the_other
           race_resolved eq_refl eq_refl eq_refl eq_refl H).
Defined.

(** * Further properties of the routes *)

(** ** Listing the models of a key *)

Section ModelsRuns.

Variable up : Upstream.
Variable decrypt : string -> string.

(** The run of a well-formed query by a caller who exists. *)
Lemma available_models_found db uid query user :
  q_keyType query <> "" -> q_keyId query <> "" ->
  User.of_account uid <$> db !! uid = Some user ->
  run up (available_models decrypt uid query) db =
    (if String.eqb (q_keyType query) "temp" then
       match list_find (fun k => TempToken._id k = q_keyId query)
                       (User.temporaryTokens user) with
       | None => ModelsFailure 404 "Temporary API key not found"
       | Some (_, tempKey) =>
           match getProviderFromModel (TempToken.name tempKey) with
           | Throws e => models_error e
           | Returns provider => Models (models_of provider)
           end
       end
     else if String.eqb (q_keyType query) "user" then
       match list_find (fun k => ApiKey._id k = q_keyId query)
                       (User.api_keys user) with
       | None => ModelsFailure 404 "API key not found"
       | Some (_, userKey) =>
           match getProviderFromModel (ApiKey.name userKey) with
           | Throws e => models_error e
           | Returns provider => Models (models_of provider)
           end
       end
     else ModelsFailure 400 "Invalid key type",
     db, [Loaded uid]).
Proof.
  intros Ht Hk Hu. unfold available_models.
  apply falsy_false in Ht, Hk. rewrite Ht, Hk. simpl. rewrite Hu.
  destruct (String.eqb (q_keyType query) "temp").
  - destruct (list_find _ (User.temporaryTokens user)) as [[i k]|];
      [| reflexivity].
    destruct (getProviderFromModel (TempToken.name k)); reflexivity.
  - destruct (String.eqb (q_keyType query) "user"); [| reflexivity].
    destruct (list_find _ (User.api_keys user)) as [[i k]|]; [| reflexivity].
    destruct (getProviderFromModel (ApiKey.name k)); reflexivity.
Qed.

End ModelsRuns.

(** X1. Listing models only reads: whatever the query, the handler
    leaves the collection as it was, saves no document and calls no
    upstream provider; it loads at most the caller's document. *)
Theorem available_models_only_reads (up : Upstream)
    (decrypt : string -> string) (db : DB) (uid : string)
    (query : ModelsQuery) :
  let R := run up (available_models decrypt uid query) db in
  db_of R = db /\
  saved (trace_of R) = [] /\
  asked (trace_of R) = [] /\
  (trace_of R = [] \/ trace_of R = [Loaded uid]).
Proof.
  intros R. subst R. unfold available_models.
  destruct (JsString.falsy (q_keyType query));
    [simpl; repeat split; now left |].
  destruct (JsString.falsy (q_keyId query));
    [simpl; repeat split; now left |].
  simpl.
  destruct (String.eqb (q_keyType query) "temp").
  - destruct (User.of_account uid <$> db !! uid) as [user|];
      [| simpl; repeat split; now right].
    destruct (list_find _ (User.temporaryTokens user)) as [[i k]|];
      [| simpl; repeat split; now right].
    destruct (getProviderFromModel (TempToken.name k));
      simpl; repeat split; now right.
  - destruct (String.eqb (q_keyType query) "user");
      [| simpl; repeat split; now right].
    destruct (User.of_account uid <$> db !! uid) as [user|];
      [| simpl; repeat split; now right].
    destruct (list_find _ (User.api_keys user)) as [[i k]|];
      [| simpl; repeat split; now right].
    destruct (getProviderFromModel (ApiKey.name k));
      simpl; repeat split; now right.
Qed.

(** X2. The models listed for a key are those of the provider inferred
    from the key's own name: for a purchased bundle the bundle's name,
    for an owned key the key's name.  Nothing else about the key is
    consulted: not the tokens it has left, not its expiry, not its
    seller. *)
Theorem available_models_by_key_name (up : Upstream)
    (decrypt : string -> string) (db : DB) (uid : string)
    (query : ModelsQuery) (user : User.t) (name : string) :
  q_keyId query <> "" ->
  User.of_account uid <$> db !! uid = Some user ->
  (q_keyType query = "temp" /\
   exists i k,
     list_find (fun k => TempToken._id k = q_keyId query)
               (User.temporaryTokens user) = Some (i, k) /\
     TempToken.name k = name) \/
  (q_keyType query = "user" /\
   exists i k,
     list_find (fun k => ApiKey._id k = q_keyId query) (User.api_keys user)
       = Some (i, k) /\
     ApiKey.name k = name) ->
  response_of (run up (available_models decrypt uid query) db) =
    match getProviderFromModel name with
    | Returns provider => Models (models_of provider)
    | Throws e => models_error e
    end.
Proof.
  intros Hk Hu [[Ht (i & k & Hfind & Hname)] | [Ht (i & k & Hfind & Hname)]].
  - rewrite (available_models_found up decrypt db uid query user); auto;
      [| rewrite Ht; discriminate].
    rewrite Ht, Hfind, Hname. simpl.
    destruct (getProviderFromModel name); reflexivity.
  - rewrite (available_models_found up decrypt db uid query user); auto;
      [| rewrite Ht; discriminate].
    rewrite Ht, Hfind, Hname. simpl.
    destruct (getProviderFromModel name); reflexivity.
Qed.

(** The held bundle, expired and named for GPT-4, lists the OpenAI
    models. *)
Lemma available_models_by_key_name_witness :
  response_of (run Sample.up
                   (available_models Sample.decrypt "buyer"
                                     (mkModelsQuery "temp" "n1")) Held.db)
    = Models (models_of openai).
Proof.
  assert (Hk : q_keyId (mkModelsQuery "temp" "n1") <> "") by discriminate.
  exact (available_models_by_key_name Sample.up Sample.decrypt Held.db "buyer"
           (mkModelsQuery "temp" "n1") Held.buyer "gpt-4 spare quota"
           Hk eq_refl
           (or_introl (conj eq_refl
              (ex_intro _ 0%nat (ex_intro _ Held.bought
                 (conj eq_refl eq_refl)))))).
Defined.

(** X3. The refusals of the models listing.  A missing key type or key
    id is a 400 before anything is loaded.  A key type other than "temp"
    and "user" is a 400, also for a caller who does not exist.  For the
    two known key types a caller who does not exist is a 500: the
    handler reads the collections of the [null] document.  A key that
    the caller does not hold is a 404. *)
Theorem available_models_refusals (up : Upstream)
    (decrypt : string -> string) (db : DB) (uid : string)
    (query : ModelsQuery) :
  let R := run up (available_models decrypt uid query) db in
  (q_keyType query = "" \/ q_keyId query = "" ->
   response_of R = ModelsFailure 400 "Key type and ID are required" /\
   trace_of R = []) /\
  (q_keyType query <> "" -> q_keyId query <> "" ->
   (q_keyType query <> "temp" -> q_keyType query <> "user" ->
    response_of R = ModelsFailure 400 "Invalid key type") /\
   (db !! uid = None ->
    q_keyType query = "temp" \/ q_keyType query = "user" ->
    exists e, response_of R = ModelsError "Server error" e) /\
   (forall user, User.of_account uid <$> db !! uid = Some user ->
      (q_keyType query = "temp" ->
       list_find (fun k => TempToken._id k = q_keyId query)
                 (User.temporaryTokens user) = None ->
       response_of R = ModelsFailure 404 "Temporary API key not found") /\
      (q_keyType query = "user" ->
       list_find (fun k => ApiKey._id k = q_keyId query) (User.api_keys user)
         = None ->
       response_of R = ModelsFailure 404 "API key not found"))).
Proof.
  intros R. split.
  - subst R. unfold available_models. intros [H | H]; rewrite H.
    + split; reflexivity.
    + destruct (JsString.falsy (q_keyType query)); split; reflexivity.
  - intros Ht Hk. split; [| split].
    + intros Hnt Hnu. subst R. unfold available_models.
      apply falsy_false in Ht, Hk. rewrite Ht, Hk. simpl.
      apply String.eqb_neq in Hnt, Hnu. rewrite Hnt, Hnu.
      destruct (User.of_account uid <$> db !! uid); reflexivity.
    + intros Hnone Hkind. subst R. unfold available_models.
      apply falsy_false in Ht, Hk. rewrite Ht, Hk. simpl. rewrite Hnone. simpl.
      destruct Hkind as [-> | ->]; simpl; eexists; reflexivity.
    + intros user Hu. subst R.
      rewrite (available_models_found up decrypt db uid query user Ht Hk Hu).
      split.
      * intros -> ->. reflexivity.
      * intros -> ->. reflexivity.
Qed.

(** A caller unknown to the collection asks for the models of a
    purchased bundle. *)
Lemma available_models_refusals_witness :
  exists e,
    response_of (run Sample.up
                     (available_models Sample.decrypt "nobody"
                                       (mkModelsQuery "temp" "n1")) Held.db)
      = ModelsError "Server error" e.
Proof.
  assert (Ht : q_keyType (mkModelsQuery "temp" "n1") <> "") by discriminate.
  assert (Hk : q_keyId (mkModelsQuery "temp" "n1") <> "") by discriminate.
  exact (proj1 (proj2 (proj2 (available_models_refusals Sample.up Sample.decrypt
                                Held.db "nobody" (mkModelsQuery "temp" "n1"))
                             Ht Hk))
               eq_refl (or_introl eq_refl)).
Defined.

(** ** What a chat request can and cannot change *)

Lemma store_bundle_amount keyId i tempKey user :
  User.amount (store_bundle keyId i tempKey user) = User.amount user.
Proof. unfold store_bundle. cbv zeta. destruct (_ <=? 0); reflexivity. Qed.



Section ChatOutcome.

Variable up : Upstream.
Variable decrypt : string -> string.

Lemma chat_outcome db uid body :
  let R := run up (chat decrypt uid body) db in
  (length (asked (trace_of R)) <= 1)%nat /\
  (chat_unchanged db R \/ chat_debited db uid R).
Proof.
  intros R. subst R. unfold chat_unchanged, chat_debited, chat.
  destruct (JsString.falsy (c_message body) || JsString.falsy (c_keyType body)
            || JsString.falsy (c_keyId body) || JsString.falsy (c_modelId body))%bool;
    [simpl; split; [lia | left; repeat split] |].
  simpl.
  destruct (User.of_account uid <$> db !! uid) as [user|] eqn:Hu;
    [| simpl; split; [lia | left; repeat split]].
  pose proof (of_account_id _ _ _ Hu) as Hid.
  destruct (String.eqb (c_keyType body) "temp").
  - unfold chat_temp.
    destruct (list_find _ (User.temporaryTokens user)) as [[i tempKey]|];
      [| simpl; split; [lia | left; repeat split]].
    destruct (TempToken.tokensRemaining tempKey <=? 0);
      [simpl; split; [lia | left; repeat split] |].
    cbn [mbind Prog_bind bind await run perform].
    destruct (User.of_account (TempToken.sellerId tempKey)
                <$> db !! TempToken.sellerId tempKey) as [seller|];
      [| simpl; split; [lia | left; repeat split]].
    destruct (list_find _ (User.api_keys seller)) as [[j originalApiKey]|];
      [| simpl; split; [lia | left; repeat split]].
    destruct (getProviderFromModel _) as [p | e];
      [| simpl; split; [lia | left; repeat split]].
    rewrite run_mbind, run_provider. unfold meter_temp.
    destruct (answer up p _ _ _) as [response | e];
      [| simpl; split; [lia | left; repeat split]].
    cbv zeta.
    destruct (totalTokens (usage response) >? TempToken.tokensRemaining tempKey);
      [simpl; split; [lia | left; repeat split] |].
    simpl. split; [lia |]. right.
    eexists user, _. rewrite store_bundle_id, Hid.
    repeat split;
      [now rewrite store_bundle_id | apply store_bundle_amount].
  - destruct (String.eqb (c_keyType body) "user");
      [| simpl; split; [lia | left; repeat split]].
    unfold chat_user.
    destruct (list_find _ (User.api_keys user)) as [[i userKey]|];
      [| simpl; split; [lia | left; repeat split]].
    destruct (getProviderFromModel _) as [p | e];
      [| simpl; split; [lia | left; repeat split]].
    rewrite run_mbind, run_provider.
    destruct (answer up p _ _ _) as [response | e];
      [| simpl; split; [lia | left; repeat split]].
    cbv zeta.
    destruct (ApiKey.available userKey <? totalTokens (usage response));
      [simpl; split; [lia | left; repeat split] |].
    simpl. split; [lia |]. right.
    eexists user, _. rewrite Hid. repeat split. exact Hid.
Qed.

End ChatOutcome.

(** X4. Whatever the request, a chat changes no account but the
    caller's, never changes the caller's balance, calls the upstream
    provider at most once and saves at most one document; and a chat
    that is not completed changes nothing at all. *)
Theorem chat_touches_only_the_caller (up : Upstream)
    (decrypt : string -> string) (db : DB) (uid : string) (body : ChatBody) :
  let R := run up (chat decrypt uid body) db in
  (forall id, id <> uid -> db_of R !! id = db !! id) /\
  acc_amount <$> db_of R !! uid = acc_amount <$> db !! uid /\
  (length (asked (trace_of R)) <= 1)%nat /\
  (length (saved (trace_of R)) <= 1)%nat /\
  (forall u, u ∈ saved (trace_of R) -> User._id u = uid) /\
  (is_success (response_of R) = false ->
   db_of R = db /\ saved (trace_of R) = []).
Proof.
  intros R. destruct (chat_outcome up decrypt db uid body) as [Hasked Hout].
  fold R in Hasked, Hout.
  destruct Hout as [(Hfail & Hdb & Hsaved)
                   | (user & user' & Hok & Hu & Hsaved & Hdb & Hid & Hamount & _)].
  - rewrite Hdb, Hsaved. repeat split; auto; try (simpl; lia).
    intros u Hin. inversion Hin.
  - rewrite Hdb, Hsaved. split; [| split; [| split; [| split; [| split]]]].
    + intros id Hne. now rewrite lookup_insert_ne.
    + rewrite lookup_insert_eq. simpl. rewrite Hamount.
      destruct (db !! uid) as [acc|]; [| discriminate].
      simpl in Hu. injection Hu as <-. reflexivity.
    + exact Hasked.
    + simpl. lia.
    + intros u Hin. apply list_elem_of_singleton in Hin. now subst u.
    + congruence.
Qed.

(** A question that costs more than the bundle holds: the seller's
    account is not touched, and nothing is written at all. *)
Lemma chat_touches_only_the_caller_witness :
  let R := run Sample.up (chat Sample.decrypt "buyer" Held.question)
               Held.db in
  db_of R !! "seller" = Held.db !! "seller" /\
  db_of R = Held.db /\ saved (trace_of R) = [].
Proof.
  intros R.
  destruct (chat_touches_only_the_caller Sample.up Sample.decrypt Held.db
              "buyer" Held.question) as (Hframe & _ & _ & _ & _ & Hfail).
  split; [apply Hframe; discriminate | apply Hfail; reflexivity].
Defined.

(** ** Completed chats *)






(** ** Refused chats *)

(** X7. The first checks of a chat request.  A request lacking its
    message, key type, key id or model id is a 400 before anything is
    loaded.  Otherwise a caller who does not exist is a 404, and for a
    caller who exists a key type other than "temp" and "user" is a
    400. *)
Theorem chat_request_validation (up : Upstream) (decrypt : string -> string)
    (db : DB) (uid : string) (body : ChatBody) :
  let R := run up (chat decrypt uid body) db in
  (c_message body = "" \/ c_keyType body = "" \/ c_keyId body = "" \/
   c_modelId body = "" ->
   response_of R
     = Failure 400 "Message, key type, key ID, and model ID are required" /\
   trace_of R = []) /\
  (c_message body <> "" -> c_keyType body <> "" -> c_keyId body <> "" ->
   c_modelId body <> "" ->
   (db !! uid = None ->
    response_of R = Failure 404 "User not found" /\ trace_of R = [Loaded uid]) /\
   (forall acc, db !! uid = Some acc ->
      c_keyType body <> "temp" -> c_keyType body <> "user" ->
      response_of R = Failure 400 "Invalid key type" /\
      trace_of R = [Loaded uid])).
Proof.
  intros R. subst R. unfold chat. split.
  - intros H.
    assert (Hf : (JsString.falsy (c_message body) || JsString.falsy (c_keyType body)
                  || JsString.falsy (c_keyId body)
                  || JsString.falsy (c_modelId body))%bool = true).
    { destruct H as [-> | [-> | [-> | ->]]]; simpl;
        rewrite ?orb_true_r; reflexivity. }
    rewrite Hf. split; reflexivity.
  - intros Hm Ht Hk Hmod. apply falsy_false in Hm, Ht, Hk, Hmod.
    rewrite Hm, Ht, Hk, Hmod. simpl. split.
    + intros ->. split; reflexivity.
    + intros acc -> Hnt Hnu. simpl.
      apply String.eqb_neq in Hnt, Hnu. rewrite Hnt, Hnu. split; reflexivity.
Qed.

(** A request without a message, and a full request from a caller who
    does not exist. *)
Lemma chat_request_validation_witness :
  response_of (run Sample.up
                 (chat Sample.decrypt "buyer" (mkChatBody "" "temp" "n1" "gpt-4"))
                 Held.db)
    = Failure 400 "Message, key type, key ID, and model ID are required" /\
  response_of (run Sample.up (chat Sample.decrypt "nobody" Held.question)
                   Held.db)
    = Failure 404 "User not found".
Proof.
  split.
  - apply (chat_request_validation Sample.up Sample.decrypt Held.db "buyer"
             (mkChatBody "" "temp" "n1" "gpt-4")).
    left. reflexivity.
  - apply (chat_request_validation Sample.up Sample.decrypt Held.db "nobody"
             Held.question); try discriminate.
    reflexivity.
Defined.

(** X8. The refusals of a chat on a purchased bundle that come before
    the upstream call.  A bundle the caller does not hold is a 404; a
    bundle with no tokens left is refused before its seller is even
    loaded; a seller who no longer exists, or who no longer has the
    original key, is a 404.  In none of these is the provider called or
    anything changed. *)
Theorem chat_bundle_refusals (up : Upstream) (decrypt : string -> string)
    (db : DB) (uid : string) (body : ChatBody) (user : User.t) :
  ChatReady db uid body user ->
  c_keyType body = "temp" ->
  let R := run up (chat decrypt uid body) db in
  let bundle := list_find (fun k => TempToken._id k = c_keyId body)
                          (User.temporaryTokens user) in
  (bundle = None ->
   response_of R = Failure 404 "Temporary API key not found" /\
   trace_of R = [Loaded uid] /\ db_of R = db) /\
  (forall i tempKey, bundle = Some (i, tempKey) ->
     (TempToken.tokensRemaining tempKey <= 0 ->
      response_of R = Exhausted /\ trace_of R = [Loaded uid] /\ db_of R = db) /\
     (0 < TempToken.tokensRemaining tempKey ->
      (db !! TempToken.sellerId tempKey = None ->
       response_of R = Failure 404 "Seller not found" /\
       asked (trace_of R) = [] /\ db_of R = db) /\
      (forall seller,
         db !! TempToken.sellerId tempKey = Some seller ->
         list_find (fun k => ApiKey._id k = TempToken.originalApiKeyId tempKey)
                   (acc_api_keys seller) = None ->
         response_of R = Failure 404 "Original API key not found" /\
         asked (trace_of R) = [] /\ db_of R = db))).
Proof.
  intros Hready Hkind R bundle. subst R bundle.
  rewrite (chat_ready_run up decrypt _ _ _ _ Hready), Hkind.
  simpl String.eqb. cbv iota. unfold chat_temp. split.
  - intros ->. repeat split.
  - intros i tempKey ->. split.
    + intros Hle. destruct (Z.leb_spec (TempToken.tokensRemaining tempKey) 0);
        [| lia]. repeat split.
    + intros Hpos. destruct (Z.leb_spec (TempToken.tokensRemaining tempKey) 0);
        [lia |].
      cbn [mbind Prog_bind bind await run perform]. split.
      * intros ->. repeat split.
      * intros seller -> Hnone. simpl. rewrite Hnone. repeat split.
Qed.

(** A bundle of the sample world drawn down to nothing. *)
Lemma chat_bundle_refusals_witness :
  let empty := TempToken.debit 6 Held.bought in
  let db := <["buyer" := mkAccount 91 [] [empty]]> Held.db in
  let R := run Sample.up (chat Sample.decrypt "buyer" Held.question) db in
  response_of R = Exhausted /\ trace_of R = [Loaded "buyer"] /\ db_of R = db.
Proof.
  intros empty db R.
  assert (Hready : ChatReady db "buyer" Held.question
                             (User.mk "buyer" 91 [] [empty]))
    by (constructor; try reflexivity; discriminate).
  destruct (chat_bundle_refusals Sample.up Sample.decrypt db "buyer"
              Held.question _ Hready eq_refl) as [_ H].
  destruct (H 0%nat empty eq_refl) as [Hexhausted _].
  apply Hexhausted. discriminate.
Defined.

(** X9. An owned key has no such check before the call: whatever it has
    available, also nothing, the upstream provider is called; when the
    key has nothing available and the answer costs at least one token
    the chat then fails with InsufficientTokens and nothing changes. *)
Theorem owned_key_is_checked_after_the_call (up : Upstream)
    (decrypt : string -> string) (db : DB) (uid : string) (body : ChatBody)
    (user : User.t) (i : nat) (userKey : ApiKey.t) (provider : Provider) :
  UserResolved db uid body user i userKey ->
  getProviderFromModel (ApiKey.name userKey) = Returns provider ->
  ApiKey.available userKey <= 0 ->
  let R := run up (chat decrypt uid body) db in
  asked (trace_of R) = [provider] /\
  (forall response,
     answer up provider (c_message body) (c_modelId body)
            (decrypt (ApiKey.key userKey)) = Returns response ->
     0 < totalTokens (usage response) ->
     InsufficientTokens (response_of R) /\ db_of R = db).
Proof.
  intros Hres Hp Hzero R. subst R.
  rewrite (chat_user_run up decrypt _ _ _ _ _ _ _ Hres Hp). cbv zeta.
  destruct (answer up provider _ _ _) as [response | e].
  - split.
    + destruct (_ <? _); reflexivity.
    + intros r [= <-] Hpos.
      destruct (Z.ltb_spec (ApiKey.available userKey)
                           (totalTokens (usage response))); [| lia].
      split; [now right | reflexivity].
  - split; [reflexivity | intros r Hr; discriminate Hr].
Qed.

(** The key with nothing left still reaches Anthropic. *)
Lemma owned_key_is_checked_after_the_call_witness :
  let R := run Sample.up (chat Sample.decrypt "dave" (Owned.ask "k5")) Owned.db in
  ApiKey.available Owned.spent_key <= 0 /\
  asked (trace_of R) = [anthropic] /\
  InsufficientTokens (response_of R) /\ db_of R = Owned.db.
Proof.
  intros R.
  assert (Hres : UserResolved Owned.db "dave" (Owned.ask "k5") Owned.dave 0
                              Owned.spent_key)
    by (constructor; [constructor | ..]; try reflexivity; discriminate).
  assert (Hzero : ApiKey.available Owned.spent_key <= 0) by discriminate.
  destruct (owned_key_is_checked_after_the_call Sample.up Sample.decrypt
              Owned.db "dave" (Owned.ask "k5") Owned.dave 0 Owned.spent_key
              anthropic Hres eq_refl Hzero) as [Hasked Hrefused].
  split; [exact Hzero |]. split; [exact Hasked |].
  exact (Hrefused (estimate "Hello" "Hi there!") eq_refl eq_refl).
Defined.

(** X10. When the upstream provider fails, the chat answers with a 500
    that carries the upstream's message; the call was made, but nothing
    is debited and nothing is saved.  This holds for an owned key and
    for a purchased bundle. *)
Theorem upstream_failure_debits_nothing (up : Upstream)
    (decrypt : string -> string) (db : DB) (uid : string) (body : ChatBody)
    (provider : Provider) (key : string) (remaining : Z) (e : string) :
  QuotaSource db uid body provider key remaining ->
  answer up provider (c_message body) (c_modelId body) (decrypt key)
    = Throws e ->
  let R := run up (chat decrypt uid body) db in
  response_of R = ServerError "Server error" e /\
  db_of R = db /\
  saved (trace_of R) = [] /\
  asked (trace_of R) = [provider].
Proof.
  intros Hsrc Hans R. subst R.
  destruct Hsrc as [user i tempKey seller j originalApiKey provider Hres Hp
                   | user i userKey provider Hres Hp].
  - rewrite (chat_temp_run up decrypt _ _ _ _ _ _ _ _ _ _ Hres Hp).
    cbv zeta. rewrite Hans. repeat split.
  - rewrite (chat_user_run up decrypt _ _ _ _ _ _ _ Hres Hp).
    cbv zeta. rewrite Hans. repeat split.
Qed.

(** The race world's bundle against an OpenAI that rejects the key. *)
Lemma upstream_failure_debits_nothing_witness :
  let R := run Sample.up (chat Sample.decrypt "carol" Race.request) Race.db in
  response_of R = ServerError "Server error" "401 Incorrect API key provided" /\
  db_of R = Race.db /\
  saved (trace_of R) = [] /\
  asked (trace_of R) = [openai].
Proof.
  exact (upstream_failure_debits_nothing Sample.up Sample.decrypt Race.db
           "carol" Race.request openai "enc:sk-live" 10
           "401 Incorrect API key provided"
           (purchased_source _ _ _ _ _ _ _ _ _ openai race_resolved eq_refl)
           eq_refl).
Defined.

(** X11. A key whose name names no provider cannot be used: the chat
    answers with a 500 that carries the message of the inference, the
    upstream provider is not called and nothing changes.  For an owned
    key the name is the key's; for a purchased bundle it is the bundle's
    [apiKeyName] or else the original key's name. *)
Theorem unknown_provider_is_a_server_error (up : Upstream)
    (decrypt : string -> string) (db : DB) (uid : string) (body : ChatBody)
    (name : string) :
  (exists user i userKey,
      UserResolved db uid body user i userKey /\ name = ApiKey.name userKey) \/
  (exists user i tempKey seller j originalApiKey,
      TempResolved db uid body user i tempKey seller j originalApiKey /\
      name = or_else (TempToken.apiKeyName tempKey)
                     (ApiKey.name originalApiKey)) ->
  UnknownProvider (getProviderFromModel name) ->
  let R := run up (chat decrypt uid body) db in
  response_of R
    = ServerError "Server error"
        ("Unable to determine provider from model name: " ++ name)%string /\
  asked (trace_of R) = [] /\
  saved (trace_of R) = [] /\
  db_of R = db.
Proof.
  intros Hkey [msg Hmsg] R. subst R.
  assert (He : msg = ("Unable to determine provider from model name: "
                      ++ name)%string).
  { rewrite getProviderFromModel_cases in Hmsg. cbv zeta in Hmsg.
    repeat destruct (JsString.includes _ _); congruence. }
  subst msg.
  destruct Hkey as [(user & i & userKey & Hres & ->)
                   | (user & i & tempKey & seller & j & key & Hres & ->)].
  - destruct Hres as [Hready Hkind Hkey].
    rewrite (chat_ready_run up decrypt _ _ _ _ Hready), Hkind.
    simpl String.eqb. cbv iota. unfold chat_user. rewrite Hkey, Hmsg.
    repeat split.
  - rewrite (chat_temp_unknown up decrypt _ _ _ _ _ _ _ _ _ _ Hres Hmsg).
    repeat split.
Qed.

(** The key named for llama. *)
Lemma unknown_provider_is_a_server_error_witness :
  let R := run Sample.up (chat Sample.decrypt "dave" (Owned.ask "k7")) Owned.db in
  response_of R
    = ServerError "Server error"
        "Unable to determine provider from model name: llama-3 local" /\
  asked (trace_of R) = [] /\
  saved (trace_of R) = [] /\
  db_of R = Owned.db.
Proof.
  assert (Hres : UserResolved Owned.db "dave" (Owned.ask "k7") Owned.dave 2
                              Owned.local_key)
    by (constructor; [constructor | ..]; try reflexivity; discriminate).
  exact (unknown_provider_is_a_server_error Sample.up Sample.decrypt Owned.db
           "dave" (Owned.ask "k7") "llama-3 local"
           (or_introl (ex_intro _ Owned.dave (ex_intro _ 2%nat
              (ex_intro _ Owned.local_key (conj Hres eq_refl)))))
           (ex_intro _ _ eq_refl)).
Defined.

(** ** Listing and chatting with one bundle *)

(** X12. For a bundle that Purchase created, the two routes infer the
    provider from different names: the listing offers the models of the
    provider named by the bundle's own name, while the chat calls the
    provider named by the seller's original key. *)
Theorem listing_and_chat_read_different_names (up : Upstream)
    (decrypt : string -> string) (db : DB) (uid : string) (body : ChatBody)
    (user : User.t) (i : nat) (tempKey : TempToken.t) (seller : User.t)
    (j : nat) (originalApiKey : ApiKey.t) (listed called : Provider) :
  TempResolved db uid body user i tempKey seller j originalApiKey ->
  PurchaseCreated tempKey ->
  getProviderFromModel (TempToken.name tempKey) = Returns listed ->
  getProviderFromModel (ApiKey.name originalApiKey) = Returns called ->
  response_of (run up (available_models decrypt uid
                         (mkModelsQuery "temp" (c_keyId body))) db)
    = Models (models_of listed) /\
  asked (trace_of (run up (chat decrypt uid body) db)) = [called].
Proof.
  intros Hres Hcreated Hlisted Hcalled. split.
  - destruct Hres as [[Hm Ht Hk Hmod Hu] Hkind Hkey Hrem Hsel Horig].
    rewrite (available_models_found up decrypt db uid _ user);
      [| discriminate | exact Hk | exact Hu].
    simpl. rewrite Hkey, Hlisted. reflexivity.
  - apply (chat_temp_asked up decrypt _ _ _ _ _ _ _ _ _ _ Hres).
    now rewrite (PurchaseCreated_apiKeyName _ Hcreated).
Qed.

(** The held bundle lists the OpenAI models, none of which is the model
    of the question, and its chat goes to Anthropic. *)
Lemma listing_and_chat_read_different_names_witness :
  response_of (run Sample.up
                   (available_models Sample.decrypt "buyer"
                      (mkModelsQuery "temp" (c_keyId Held.question))) Held.db)
    = Models (models_of openai) /\
  asked (trace_of (run Sample.up (chat Sample.decrypt "buyer" Held.question)
                       Held.db)) = [anthropic].
Proof.
  assert (Hm : "Explain recursion" <> "") by discriminate.
  exact (listing_and_chat_read_different_names Sample.up Sample.decrypt Held.db
           "buyer" Held.question Held.buyer 0 Held.bought Held.seller 0
           Sample.key openai anthropic (held_resolved _ Hm)
           (created_new "n1" SampleDocs.seller Sample.bundle 6)
           eq_refl eq_refl).
Defined.

(** ** The estimate in integers *)

Lemma ceil_div4_formula (len : Z) : ceil_div4 len = (len + 3) / 4.
Proof.
  apply (is_ceil_unique (inject_Z len / 4)); [apply ceil_div4_is_ceil |].
  pose proof (Z.div_mod (len + 3) 4 ltac:(lia)) as Hdiv.
  pose proof (Z.mod_pos_bound (len + 3) 4 ltac:(lia)) as Hmod.
  set (k := (len + 3) / 4) in *.
  unfold is_ceil, Qlt, Qle, Qdiv, Qmult, Qinv, Qminus, Qplus, Qopp, inject_Z.
  simpl. lia.
Qed.

(** X13. The estimate counted in characters.  Each of the two counts is
    [(length + 3) / 4] in integer division; a message that is not empty
    costs at least one token and an empty completion none; and, the two
    ceilings being taken apart, the total charged for [m + c] characters
    lies between [(m + c) / 4] and [(m + c + 6) / 4]. *)
Theorem estimate_in_characters (message completion : string) :
  let u := usage (estimate message completion) in
  let m := JsString.length message in
  let c := JsString.length completion in
  promptTokens u = (m + 3) / 4 /\
  completionTokens u = (c + 3) / 4 /\
  (message <> "" -> 1 <= promptTokens u) /\
  (completion = "" -> completionTokens u = 0) /\
  m + c <= 4 * totalTokens u /\
  4 * totalTokens u <= m + c + 6.
Proof.
  intros u m c. subst u. simpl.
  rewrite !ceil_div4_formula. fold m c.
  assert (Hm : 0 <= m) by (subst m; unfold JsString.length; lia).
  assert (Hc : 0 <= c) by (subst c; unfold JsString.length; lia).
  pose proof (Z.div_mod (m + 3) 4 ltac:(lia)) as Hdm.
  pose proof (Z.mod_pos_bound (m + 3) 4 ltac:(lia)) as Hbm.
  pose proof (Z.div_mod (c + 3) 4 ltac:(lia)) as Hdc.
  pose proof (Z.mod_pos_bound (c + 3) 4 ltac:(lia)) as Hbc.
  repeat split; try lia.
  - intros Hne.
    assert (1 <= m)
      by (subst m; destruct message; [congruence |];
          unfold JsString.length; simpl String.length; lia).
    lia.
  - intros ->. reflexivity.
Qed.

(** Five characters answered by nothing: one token for the message, none
    for the completion. *)
Lemma estimate_in_characters_witness :
  1 <= promptTokens (usage (estimate "Hello" "")) /\
  completionTokens (usage (estimate "Hello" "")) = 0.
Proof.
  destruct (estimate_in_characters "Hello" "") as (_ & _ & Hp & Hc & _).
  split; [apply Hp; discriminate | apply Hc; reflexivity].
Defined.






(** ** More on purchases *)

(** X15. A purchase request without a seller id or a token id, with an
    amount that is not a number, or with an amount that is zero or
    negative is a 400 before anything is loaded. *)
Theorem purchase_request_validation (up : Upstream) (db : DB)
    (newId uid : string) (body : BuyTokensBody) :
  b_sellerId body = "" \/ b_tokenId body = "" \/ b_amount body = None \/
  (exists amount, b_amount body = Some amount /\ (amount <= 0)%Q) ->
  let R := run up (buy_tokens newId uid body) db in
  response_of R = bad_purchase_request /\ trace_of R = [] /\ db_of R = db.
Proof.
  intros H R. subst R. unfold buy_tokens.
  destruct (b_amount body) as [amount|] eqn:Ha; [| repeat split].
  assert (Hf : (JsString.falsy (b_sellerId body) || JsString.falsy (b_tokenId body)
                || Qle_bool amount 0)%bool = true).
  { destruct H as [-> | [-> | [H | (a & [= <-] & Hle)]]].
    - reflexivity.
    - simpl. now rewrite orb_true_r.
    - discriminate.
    - apply Qle_bool_iff in Hle. rewrite Hle. now rewrite orb_true_r. }
  rewrite Hf. repeat split.
Qed.

(** An offer of nothing. *)
Lemma purchase_request_validation_witness :
  let R := run Sample.up
               (buy_tokens "n1" "buyer" (mkBuyTokensBody "seller" "b1" (Some 0%Q)))
               Sample.db in
  response_of R = bad_purchase_request /\ trace_of R = [] /\
  db_of R = Sample.db.
Proof.
  apply (purchase_request_validation Sample.up Sample.db "n1" "buyer"
           (mkBuyTokensBody "seller" "b1" (Some 0%Q))).
  right. right. right. exists 0%Q. split; [reflexivity | discriminate].
Defined.

(** X16. The buyer's balance is checked against the amount offered, not
    against the price of the tokens it buys: a buyer with less than the
    offer is refused with the insufficient-balance 400 before the seller
    is loaded, whatever the bundle costs. *)
Theorem balance_is_checked_against_the_offer (up : Upstream) (db : DB)
    (newId uid : string) (body : BuyTokensBody) (amount : Q) (buyer : User.t) :
  b_amount body = Some amount ->
  b_sellerId body <> "" -> b_tokenId body <> "" -> (0 < amount)%Q ->
  User.of_account uid <$> db !! uid = Some buyer ->
  (User.amount buyer < amount)%Q ->
  let R := run up (buy_tokens newId uid body) db in
  response_of R = InsufficientFunds /\
  trace_of R = [Loaded uid] /\
  db_of R = db.
Proof.
  intros Ha Hs Ht Hpos Hb Hlt R. subst R. unfold buy_tokens. rewrite Ha.
  apply falsy_false in Hs, Ht. rewrite Hs, Ht.
  assert (Hle : Qle_bool amount 0 = false) by now apply Qle_bool_false.
  rewrite Hle. simpl. rewrite Hb.
  apply Qlt_bool_true in Hlt. rewrite Hlt. repeat split.
Qed.

(** An offer of 10 buys six tokens for 9; the buyer who has 9 is
    refused. *)
Lemma balance_is_checked_against_the_offer_witness :
  let R := run Sample.up (buy_tokens "n1" "erin" Sample.order) Tight.db in
  floor_div 10 (TempToken.pricePerToken Sample.bundle) = Finite 6 /\
  (inject_Z 6 * TempToken.pricePerToken Sample.bundle
   <= User.amount Tight.erin)%Q /\
  response_of R = InsufficientFunds /\
  trace_of R = [Loaded "erin"] /\
  db_of R = Tight.db.
Proof.
  intros R. split; [reflexivity |]. split; [discriminate |].
  apply (balance_is_checked_against_the_offer Sample.up Tight.db "n1" "erin"
           Sample.order 10 Tight.erin); try reflexivity; discriminate.
Defined.

Lemma transfer_buyer_api_keys newId sellerId tokenId i token n buyer seller :
  User.api_keys (tr_buyer (transfer newId sellerId tokenId i token n buyer seller))
    = User.api_keys buyer.
Proof.
  unfold transfer. cbv zeta.
  destruct (list_find _ _) as [[j t]|]; reflexivity.
Qed.

Lemma transfer_seller_api_keys newId sellerId tokenId i token n buyer seller :
  User.api_keys (tr_seller (transfer newId sellerId tokenId i token n buyer seller))
    = User.api_keys seller.
Proof.
  unfold transfer. cbv zeta.
  destruct (list_find _ _) as [[j t]|]; simpl;
    destruct (_ <=? 0); reflexivity.
Qed.

(** X17. Where no operator of the purchase rounds, a purchase conserves
    money and never overdraws: the balance of the buyer document it
    saves is not negative, and the two saved balances add up to what
    the two loaded ones did; for a buyer other than the seller these are
    the balances stored. *)
Theorem purchase_conserves_money (up : Upstream) (db db' : DB)
    (newId uid : string) (body : BuyTokensBody) (r : Response)
    (tr : list Event) :
  run up (buy_tokens newId uid body) db = (r, db', tr) ->
  is_success r = true ->
  exists amount buyer seller i token buyer' seller',
    b_amount body = Some amount /\
    User.of_account uid <$> db !! uid = Some buyer /\
    User.of_account (b_sellerId body) <$> db !! b_sellerId body = Some seller /\
    list_find (fun t => TempToken._id t = b_tokenId body)
              (User.temporaryTokens seller) = Some (i, token) /\
    saved tr = [buyer'; seller'] /\
    (uid <> b_sellerId body ->
     acc_amount <$> db' !! uid = Some (User.amount buyer') /\
     acc_amount <$> db' !! b_sellerId body = Some (User.amount seller')) /\
    (Unrounded amount (TempToken.pricePerToken token) (User.amount buyer)
               (User.amount seller) ->
     (0 <= User.amount buyer')%Q /\
     (User.amount buyer' + User.amount seller'
      == User.amount buyer + User.amount seller)%Q).
Proof.
  intros Hrun Hok.
  destruct (buy_tokens_success up _ _ _ _ _ _ _ Hrun Hok)
    as (amount & buyer & seller & i & token & n & Hacc & Hr & Hdb & Htr).
  destruct Hacc as [[Ha Hs Ht Hpos Hb Hf Hsel Htok] Hn Hn0 Hsup].
  destruct (floor_div_finite _ _ _ Hn) as [_ Hfloor].
  set (t := transfer newId (b_sellerId body) (b_tokenId body) i token n
                     buyer seller) in *.
  exists amount, buyer, seller, i, token, (tr_buyer t), (tr_seller t).
  repeat (split; [solve [eauto] |]).
  split; [rewrite Htr; reflexivity |].
  split.
  { intros Hne. rewrite Hdb. split.
    - rewrite lookup_insert_ne by congruence. now rewrite lookup_insert_eq.
    - now rewrite lookup_insert_eq. }
  intros Hexact.
  destruct (transfer_unrounded newId (b_sellerId body) (b_tokenId body) i token
              n buyer seller amount Hpos Hn0 Hfloor Hexact)
    as (_ & _ & Hle & Hbuyer & Hseller).
  fold t in Hle, Hbuyer, Hseller.
  split; [rewrite Hbuyer; lra | rewrite Hbuyer, Hseller; ring].
Qed.

(** The sample order: 100 and 5 before, 91 and 14 after. *)
Lemma purchase_conserves_money_witness :
  let R := run Sample.up (buy_tokens "n1" "buyer" Sample.order) Sample.db in
  Unrounded 10 (3 # 2) 100 5 /\
  exists amount buyer seller i token buyer' seller',
    b_amount Sample.order = Some amount /\
    User.of_account "buyer" <$> Sample.db !! "buyer" = Some buyer /\
    User.of_account (b_sellerId Sample.order)
      <$> Sample.db !! b_sellerId Sample.order = Some seller /\
    list_find (fun t => TempToken._id t = b_tokenId Sample.order)
              (User.temporaryTokens seller) = Some (i, token) /\
    saved (trace_of R) = [buyer'; seller'] /\
    ("buyer" <> b_sellerId Sample.order ->
     acc_amount <$> db_of R !! "buyer" = Some (User.amount buyer') /\
     acc_amount <$> db_of R !! b_sellerId Sample.order
       = Some (User.amount seller')) /\
    (Unrounded amount (TempToken.pricePerToken token) (User.amount buyer)
               (User.amount seller) ->
     (0 <= User.amount buyer')%Q /\
     (User.amount buyer' + User.amount seller'
      == User.amount buyer + User.amount seller)%Q).
Proof.
  intros R. split; [repeat split; vm_compute; reflexivity |].
  apply (purchase_conserves_money Sample.up Sample.db (db_of R) "n1" "buyer"
           Sample.order (response_of R) (trace_of R)); vm_compute; reflexivity.
Defined.

Section PurchaseFrame.

Variable up : Upstream.

(** No purchase calls an upstream provider. *)
Lemma buy_tokens_never_asks db newId uid body :
  asked (trace_of (run up (buy_tokens newId uid body) db)) = [].
Proof.
  unfold buy_tokens.
  destruct (b_amount body) as [amount|]; [| reflexivity].
  destruct (JsString.falsy (b_sellerId body) || JsString.falsy (b_tokenId body)
            || Qle_bool amount 0)%bool; [reflexivity |].
  simpl.
  destruct (User.of_account uid <$> db !! uid) as [buyer|]; [| reflexivity].
  destruct (Qlt_bool (User.amount buyer) amount); [reflexivity |].
  simpl.
  destruct (User.of_account (b_sellerId body) <$> db !! b_sellerId body)
    as [seller|]; [| reflexivity].
  destruct (list_find _ (User.temporaryTokens seller)) as [[i token]|];
    [| reflexivity].
  destruct (floor_div amount (TempToken.pricePerToken token)) as [n|];
    [| reflexivity].
  destruct (n <=? 0); [reflexivity |].
  destruct (TempToken.tokensRemaining token <? n); reflexivity.
Qed.

End PurchaseFrame.

(** X18. Whatever the request, a purchase changes no account but the
    buyer's and the seller's, calls no upstream provider, and leaves
    every owned key of every account as it was: selling quota carved
    from a key does not draw on the key's [available]. *)
Theorem purchase_touches_only_the_two_accounts (up : Upstream) (db : DB)
    (newId uid : string) (body : BuyTokensBody) :
  let R := run up (buy_tokens newId uid body) db in
  (forall id, id <> uid -> id <> b_sellerId body ->
              db_of R !! id = db !! id) /\
  asked (trace_of R) = [] /\
  (forall id, acc_api_keys <$> db_of R !! id = acc_api_keys <$> db !! id).
Proof.
  intros R. split; [| split; [apply buy_tokens_never_asks |]].
  - intros id Hu Hs. subst R.
    destruct (run up (buy_tokens newId uid body) db) as [[r db'] tr] eqn:HR.
    destruct (buy_tokens_inv up _ _ _ _ _ _ _ HR)
      as [(_ & -> & _) | (amount & buyer & seller & i & token & n & Hacc)];
      [reflexivity |].
    rewrite (buy_tokens_accepted up _ newId _ _ _ _ _ _ _ _ Hacc) in HR.
    cbv zeta in HR. injection HR as _ <- _.
    unfold db_of. simpl. now rewrite !lookup_insert_ne by congruence.
  - intros id. subst R.
    destruct (run up (buy_tokens newId uid body) db) as [[r db'] tr] eqn:HR.
    destruct (buy_tokens_inv up _ _ _ _ _ _ _ HR)
      as [(_ & -> & _) | (amount & buyer & seller & i & token & n & Hacc)];
      [reflexivity |].
    rewrite (buy_tokens_accepted up _ newId _ _ _ _ _ _ _ _ Hacc) in HR.
    cbv zeta in HR. injection HR as _ <- _.
    unfold db_of. simpl.
    destruct Hacc as [[_ _ _ _ Hb _ Hsel _] _ _ _].
    destruct (decide (b_sellerId body = id)) as [<- | Hs].
    + rewrite lookup_insert_eq. simpl. rewrite transfer_seller_api_keys.
      destruct (db !! b_sellerId body) as [acc|]; [| discriminate].
      simpl in *. injection Hsel as <-. reflexivity.
    + rewrite lookup_insert_ne by exact Hs.
      destruct (decide (uid = id)) as [<- | Hu].
      * rewrite lookup_insert_eq. simpl. rewrite transfer_buyer_api_keys.
        destruct (db !! uid) as [acc|]; [| discriminate].
        simpl in *. injection Hb as <-. reflexivity.
      * now rewrite lookup_insert_ne by exact Hu.
Qed.

(** The purchase of the tight world: no account appears under another
    id, and the seller's key is as it was. *)
Lemma purchase_touches_only_the_two_accounts_witness :
  let R := run Sample.up (buy_tokens "n1" "erin" Sample.order) Tight.db in
  db_of R !! "buyer" = Tight.db !! "buyer" /\
  acc_api_keys <$> db_of R !! "seller" = Some [Sample.key].
Proof.
  intros R.
  destruct (purchase_touches_only_the_two_accounts Sample.up Tight.db "n1"
              "erin" Sample.order) as (Hframe & _ & Hkeys).
  split; [apply Hframe; discriminate | exact (Hkeys "seller")].
Defined.

(** X19. A purchase by a buyer who already holds a bundle of that name
    from that seller tops that bundle up in place: it keeps its position
    and its own id, credential, price, expiry and original key, not
    those of the bundle bought from, and, the new count staying within
    [2^53], gains the tokens bought; the response reports this bundle.
    No bundle is added. *)
Theorem repeat_purchase_tops_up_in_place (up : Upstream) (db : DB)
    (newId uid : string) (body : BuyTokensBody) (amount : Q)
    (buyer seller : User.t) (i j : nat) (token held : TempToken.t) (n : Z) :
  Accepted db uid body amount buyer seller i token n ->
  uid <> b_sellerId body ->
  list_find (fun t => TempToken.name t = TempToken.name token /\
                      TempToken.sellerId t = b_sellerId body)
            (User.temporaryTokens buyer) = Some (j, held) ->
  Double.safe (TempToken.tokensRemaining held + n) ->
  let R := run up (buy_tokens newId uid body) db in
  let topped :=
    {| TempToken._id := TempToken._id held;
       TempToken.name := TempToken.name held;
       TempToken.apiKey := TempToken.apiKey held;
       TempToken.apiKeyName := TempToken.apiKeyName held;
       TempToken.tokensRemaining := TempToken.tokensRemaining held + n;
       TempToken.expiresAt := TempToken.expiresAt held;
       TempToken.pricePerToken := TempToken.pricePerToken held;
       TempToken.sellerId := TempToken.sellerId held;
       TempToken.originalApiKeyId := TempToken.originalApiKeyId held |} in
  acc_temporaryTokens <$> db_of R !! uid
    = Some (<[j := topped]> (User.temporaryTokens buyer)) /\
  length (<[j := topped]> (User.temporaryTokens buyer))
    = length (User.temporaryTokens buyer) /\
  exists spent balance,
    response_of R =
      Purchased n spent balance
        {| pt_id := TempToken._id held;
           pt_name := TempToken.name held;
           pt_tokensRemaining := TempToken.tokensRemaining held + n;
           pt_expiresAt := TempToken.expiresAt held |}.
Proof.
  intros Hacc Hne Hheld Hsafe R topped. subst R.
  rewrite (buy_tokens_accepted up _ newId _ _ _ _ _ _ _ _ Hacc). cbv zeta.
  unfold response_of, db_of. simpl fst. simpl snd.
  assert (Htopped : TempToken.add n held = topped).
  { subst topped. unfold TempToken.add. now rewrite count_safe. }
  split; [| split; [apply length_insert |]].
  - rewrite lookup_insert_ne by congruence. rewrite lookup_insert_eq. simpl.
    rewrite transfer_buyer_tokens, Hheld, Htopped. reflexivity.
  - unfold purchased, transfer. cbv zeta. simpl in *. rewrite Hheld.
    rewrite Htopped. simpl. eauto.
Qed.

(** The second, smaller order of the sample world tops up the bundle
    bought by the first. *)
Lemma repeat_purchase_tops_up_in_place_witness :
  let R := run Sample.up (buy_tokens "n2" "buyer" SampleDocs.order_more)
               SampleDocs.after_first in
  Double.safe (6 + 2) /\
  acc_temporaryTokens <$> db_of R !! "buyer"
    = Some [TempToken.mk "n1" "gpt-4 spare quota" "enc:sk-ant" None (6 + 2)
                         1767225600 (3 # 2) "seller" "k1"] /\
  exists spent balance,
    response_of R =
      Purchased 2 spent balance
        {| pt_id := "n1"; pt_name := "gpt-4 spare quota";
           pt_tokensRemaining := 6 + 2; pt_expiresAt := 1767225600 |}.
Proof.
  intros R.
  assert (Hne : "buyer" <> b_sellerId SampleDocs.order_more) by discriminate.
  assert (Hheld :
    list_find (fun t => TempToken.name t
                        = TempToken.name (TempToken.debit 6 Sample.bundle) /\
                        TempToken.sellerId t = b_sellerId SampleDocs.order_more)
              (User.temporaryTokens SampleDocs.buyer1)
    = Some (0%nat, Held.bought)) by evaluated.
  assert (Hsafe : Double.safe (TempToken.tokensRemaining Held.bought + 2))
    by evaluated.
  split; [exact Hsafe |].
  destruct (repeat_purchase_tops_up_in_place Sample.up SampleDocs.after_first
              "n2" "buyer" SampleDocs.order_more 3 SampleDocs.buyer1
              SampleDocs.seller1 0 0 (TempToken.debit 6 Sample.bundle)
              Held.bought 2 sample_accepted_more Hne Hheld Hsafe)
    as (Hstored & _ & Hresp).
  split; [| exact Hresp].
  etransitivity; [exact Hstored | vm_compute; reflexivity].
Defined.

(** X20. Nothing stops a user from buying their own bundle.  Such a
    request passes every check like any other: the handler loads the
    account twice, debits one copy and credits the other, and hands both
    to [save] under the same id, the debited copy first. *)
Theorem buying_from_oneself_passes_the_checks (up : Upstream) (db : DB)
    (newId uid : string) (body : BuyTokensBody) (amount : Q)
    (buyer seller : User.t) (i : nat) (token : TempToken.t) (n : Z) :
  Accepted db uid body amount buyer seller i token n ->
  b_sellerId body = uid ->
  let R := run up (buy_tokens newId uid body) db in
  let spent := Double.mul (inject_Z n) (TempToken.pricePerToken token) in
  buyer = seller /\
  exists debited credited,
    saved (trace_of R) = [debited; credited] /\
    User._id debited = uid /\ User._id credited = uid /\
    User.amount debited = Double.sub (User.amount buyer) spent /\
    User.amount credited = Double.add (User.amount buyer) spent.
Proof.
  intros Hacc Hself R spent. subst R.
  rewrite (buy_tokens_accepted up _ newId _ _ _ _ _ _ _ _ Hacc). cbv zeta.
  unfold trace_of. simpl snd.
  destruct Hacc as [[_ _ _ _ Hb _ Hsel _] _ _ _].
  rewrite Hself in *.
  assert (Hsame : buyer = seller) by congruence. subst seller.
  split; [reflexivity |].
  eexists _, _. split; [reflexivity |].
  rewrite transfer_buyer_id, transfer_seller_id.
  rewrite transfer_buyer_amount, transfer_seller_amount.
  rewrite (of_account_id _ _ _ Hb).
  repeat split.
Qed.

(** The seller of the sample world buys two tokens of their own
    listing. *)
Lemma buying_from_oneself_passes_the_checks_witness :
  let R := run Sample.up (buy_tokens "n3" "seller" SampleDocs.order_more)
               Sample.db in
  Accepted Sample.db "seller" SampleDocs.order_more 3 SampleDocs.seller
           SampleDocs.seller 0 Sample.bundle 2 /\
  exists debited credited,
    saved (trace_of R) = [debited; credited] /\
    User._id debited = "seller" /\ User._id credited = "seller" /\
    User.amount debited = 2%Q /\
    User.amount credited = 8%Q.
Proof.
  intros R.
  assert (Hacc : Accepted Sample.db "seller" SampleDocs.order_more 3
                          SampleDocs.seller SampleDocs.seller 0 Sample.bundle 2).
  { constructor; [constructor | ..]; evaluated. }
  split; [exact Hacc |].
  destruct (buying_from_oneself_passes_the_checks Sample.up Sample.db "n3"
              "seller" SampleDocs.order_more 3 SampleDocs.seller
              SampleDocs.seller 0 Sample.bundle 2 Hacc eq_refl)
    as (_ & debited & credited & Hsaved & Hd & Hc & Hless & Hmore).
  exists debited, credited.
  split; [exact Hsaved |]. split; [exact Hd |]. split; [exact Hc |]. split.
  - rewrite Hless. vm_compute. reflexivity.
  - rewrite Hmore. vm_compute. reflexivity.
Defined.

(** *** From a purchase to its first chat *)




(** *** Tokens in a purchase *)




(** *** A ledger in whole numbers *)

(** X23. With whole numbers the arithmetic of a purchase does not round:
    for an amount below [2^53], a price and a buyer's balance of at most
    [2^53] that covers the amount, and a seller's balance that stays
    within [2^53] with the amount added, the floor of the rounded
    quotient is the floor of the quotient, and the charge, the buyer's
    difference and the seller's sum are exact. *)
Theorem whole_numbers_are_unrounded (a p b s : Z) :
  0 < a < 2 ^ 53 -> 0 < p <= 2 ^ 53 -> a <= b <= 2 ^ 53 ->
  0 <= s -> s + a <= 2 ^ 53 ->
  Unrounded (inject_Z a) (inject_Z p) (inject_Z b) (inject_Z s).
Proof.
  intros Ha Hp Hb Hs Hsa. unfold Unrounded. cbv zeta.
  rewrite <- Zdiv_Qdiv.
  pose proof (Z.mul_div_le a p ltac:(lia)) as Hf1.
  pose proof (Z.div_pos a p ltac:(lia) ltac:(lia)) as Hf0.
  set (f := a / p) in *.
  assert (Hfp : 0 <= f * p <= a) by nia.
  split; [now apply floor_rounded_quotient |].
  split; [| split].
  - apply (exact_Z _ (f * p)); [now rewrite inject_Z_mult |].
    unfold Double.safe. lia.
  - apply (exact_Z _ (b - f * p)).
    + unfold Z.sub. rewrite inject_Z_plus, inject_Z_opp, inject_Z_mult. ring.
    + unfold Double.safe. lia.
  - apply (exact_Z _ (s + f * p)).
    + now rewrite inject_Z_plus, inject_Z_mult.
    + unfold Double.safe. lia.
Qed.

(** Seven for a price of two, from a balance of twenty to one of
    three. *)
Lemma whole_numbers_are_unrounded_witness :
  Unrounded (inject_Z 7) (inject_Z 2) (inject_Z 20) (inject_Z 3).
Proof.
  apply whole_numbers_are_unrounded; try split; evaluated.
Defined.
